(** * The recommendation workflow of [main.py]

    A shallow embedding of the FastAPI back end: the [Database] and
    [LLMService] wrappers, the four agents of [RecommendationWorkflow], the
    graph built by [_build_workflow] and the two entry points [run] and
    [get_state].

    Conventions.
    - Text is [string]; the case mapping and the whitespace class are Python's
      on the ASCII range, other characters are left as they are.
    - A row of the [documents] table is the JSON object the client hands back:
      an association list from column names to values, a value being text or
      null.
    - Code that can raise returns a [result]; code that talks to Supabase or to
      the language model threads a world [W] through, in the monad [M]. *)

From Stdlib Require Import List String Ascii Bool Arith Lia Permutation.
From Stdlib Require Import ZArith.
Import ListNotations.

Local Open Scope string_scope.
Local Open Scope list_scope.

Set Implicit Arguments.

(* ================================================================== *)
(** ** Python text primitives *)

Module Py.

Definition isupper (c : ascii) : bool :=
  let n := nat_of_ascii c in Nat.leb 65 n && Nat.leb n 90.

Definition lower_char (c : ascii) : ascii :=
  if isupper c then ascii_of_nat (nat_of_ascii c + 32) else c.

(** [str.lower()] *)
Fixpoint lower (s : string) : string :=
  match s with
  | EmptyString => EmptyString
  | String c s' => String (lower_char c) (lower s')
  end.

(** [str.isspace()] on one character: tab, LF, VT, FF, CR, the four
    separators FS, GS, RS, US, and the space. *)
Definition isspace (c : ascii) : bool :=
  let n := nat_of_ascii c in
  (Nat.leb 9 n && Nat.leb n 13) || (Nat.leb 28 n && Nat.leb n 32).

(** [str.split()] with no argument: the scan keeps the word read so far
    and emits it at each whitespace character and at the end. *)
Fixpoint split_from (word s : string) : list string :=
  match s with
  | EmptyString => if (word =? "")%string then [] else [word]
  | String c s' =>
      if isspace c
      then (if (word =? "")%string then [] else [word]) ++ split_from "" s'
      else split_from (word ++ String c "") s'
  end.

Definition split (s : string) : list string := split_from "" s.

(** [sep.join(parts)] *)
Fixpoint join (sep : string) (parts : list string) : string :=
  match parts with
  | [] => ""
  | [p] => p
  | p :: rest => p ++ sep ++ join sep rest
  end.

(** Truth value of a [str] and of a [list]. *)
Definition truthy_str (s : string) : bool := negb (s =? "")%string.

Definition truthy_list {A} (l : list A) : bool :=
  match l with [] => false | _ :: _ => true end.

(** [x in xs] for strings *)
Definition contains (x : string) (xs : list string) : bool :=
  existsb (String.eqb x) xs.

(** The characters of a text. *)
Fixpoint chars (s : string) : list ascii :=
  match s with
  | EmptyString => []
  | String c s' => c :: chars s'
  end.

Definition no_space (s : string) : Prop :=
  Forall (fun c => isspace c = false) (chars s).

(** [t] is a whole word of [s]: a non-empty run without whitespace that
    is bounded on each side by whitespace or by an end of [s]. *)
Definition word_of (s t : string) : Prop :=
  t <> "" /\ no_space t /\
  exists pre post,
    s = (pre ++ t ++ post)%string /\
    (pre = "" \/ exists p c, pre = (p ++ String c "")%string /\ isspace c = true) /\
    (post = "" \/ exists c q, post = String c q /\ isspace c = true).

(** [t] occurs somewhere inside [s]. *)
Definition substring_of (t s : string) : Prop :=
  exists pre post, s = (pre ++ t ++ post)%string.

End Py.

(* ================================================================== *)
(** ** Exceptions, results and the effect monad *)

Inductive exn : Type :=
| HTTPException (status_code : nat) (detail : string)
| KeyError (key : string)
| AttributeError (what : string)
| APIError              (* raised by the Supabase client *)
| ProviderError         (* raised by the chat model client *)
| GraphRecursionError.  (* raised by the graph engine *)

Inductive result (A : Type) : Type :=
| Ok (a : A)
| Raise (e : exn).

Arguments Ok {A} a.
Arguments Raise {A} e.

Definition is_ok {A} (r : result A) : bool :=
  match r with Ok _ => true | Raise _ => false end.

(** A computation over a world [W] that returns or raises. *)
Definition M (W A : Type) : Type := W -> result A * W.

Definition ret {W A} (a : A) : M W A := fun w => (Ok a, w).

Definition raise {W A} (e : exn) : M W A := fun w => (Raise e, w).

Definition bind {W A B} (m : M W A) (k : A -> M W B) : M W B :=
  fun w =>
    match m w with
    | (Ok a, w') => k a w'
    | (Raise e, w') => (Raise e, w')
    end.

(** [try: m except Exception as e: h e] *)
Definition try_except {W A} (m : M W A) (h : exn -> M W A) : M W A :=
  fun w =>
    match m w with
    | (Ok a, w') => (Ok a, w')
    | (Raise e, w') => h e w'
    end.

(** A pure step that can raise. *)
Definition lift {W A} (r : result A) : M W A := fun w => (r, w).

Notation "x <- m ;; k" := (bind m (fun x => k))
  (at level 61, m at next level, right associativity).

Notation "'try' m 'except' h" := (try_except m h)
  (at level 60, m at level 9, h at level 9).

(** A list comprehension whose element expression can raise: it stops at the
    first element that does. *)
Fixpoint comprehension {A B} (f : A -> result B) (l : list A) : result (list B) :=
  match l with
  | [] => Ok []
  | x :: l' =>
      match f x with
      | Raise e => Raise e
      | Ok y =>
          match comprehension f l' with
          | Raise e => Raise e
          | Ok ys => Ok (y :: ys)
          end
      end
  end.

(* ================================================================== *)
(** ** Rows of the [documents] table *)

Inductive Value : Type :=
| VStr (s : string)
| VNull.

Definition Row : Type := list (string * Value).

Fixpoint lookup (key : string) (row : Row) : option Value :=
  match row with
  | [] => None
  | (k, v) :: row' => if (k =? key)%string then Some v else lookup key row'
  end.

(** [item[key]] *)
Definition getitem (key : string) (item : Row) : result Value :=
  match lookup key item with
  | Some v => Ok v
  | None => Raise (KeyError key)
  end.

(** [v.lower()]: only text has the method. *)
Definition value_lower (v : Value) : result string :=
  match v with
  | VStr s => Ok (Py.lower s)
  | VNull => Raise (AttributeError "lower")
  end.

(** [str(v)], as an f-string field prints it. *)
Definition value_str (v : Value) : string :=
  match v with
  | VStr s => s
  | VNull => "None"
  end.

(** The genre label of a row, when it has one. *)
Definition genre_of (row : Row) : option string :=
  match lookup "genre" row with
  | Some (VStr g) => Some g
  | _ => None
  end.

(** The order in which a Python [set] of strings hands out its elements:
    each distinct element once, in an order the interpreter chooses. *)
Record SetOrder : Type := {
  iterate : list string -> list string;
  iterate_perm : forall l, Permutation (iterate l) (nodup string_dec l)
}.

Definition scan_order : SetOrder :=
  {| iterate := nodup string_dec;
     iterate_perm := fun l => Permutation_refl _ |}.

Definition reverse_order : SetOrder :=
  {| iterate := fun l => rev (nodup string_dec l);
     iterate_perm := fun l => Permutation_sym (Permutation_rev _) |}.

(* ================================================================== *)
(** ** The remote services: Supabase and the chat model *)

(** The two requests the back end sends to the [documents] table. *)
Inductive Request : Type :=
| SelectGenre                       (* [.select("genre")] *)
| SelectIlike (pattern : string).   (* [.select("*").filter("genre", "ilike", pattern)] *)

(** What lies outside the process: the table, which requests and which model
    invocations fail, what the model answers, the interpreter's set order,
    and the journal of what was asked so far. *)
Record World : Type := {
  documents : list Row;
  db_down : nat -> bool;
  db_journal : list Request;
  chat : nat -> string -> string -> option string;
  chat_journal : list (string * string);
  set_order : SetOrder
}.

Definition log_request (q : Request) (w : World) : World :=
  {| documents := documents w;
     db_down := db_down w;
     db_journal := db_journal w ++ [q];
     chat := chat w;
     chat_journal := chat_journal w;
     set_order := set_order w |}.

Definition log_chat (sys usr : string) (w : World) : World :=
  {| documents := documents w;
     db_down := db_down w;
     db_journal := db_journal w;
     chat := chat w;
     chat_journal := chat_journal w ++ [(sys, usr)];
     set_order := set_order w |}.

Module Postgres.

(** [%] (written [*] in a PostgREST filter) stands for any run of
    characters, [_] for any one character. *)
Definition any_run (c : ascii) : bool :=
  (c =? "%")%char || (c =? "*")%char.

Definition any_one (c : ascii) : bool := (c =? "_")%char.

(** [s LIKE p]: the pattern has to cover the whole of [s]. The escape
    character of patterns is read as an ordinary character here; what is
    stated below about patterns is stated for patterns without it. *)
Fixpoint like (p : string) : string -> bool :=
  match p with
  | EmptyString =>
      fun s => match s with EmptyString => true | String _ _ => false end
  | String c p' =>
      if any_run c then
        fix skip (s : string) : bool :=
          like p' s ||
          match s with
          | EmptyString => false
          | String _ s' => skip s'
          end
      else
        fun s =>
          match s with
          | EmptyString => false
          | String d s' => (any_one c || (c =? d)%char) && like p' s'
          end
  end.

(** [s ILIKE p]: [LIKE] without regard to case. *)
Definition ilike (p s : string) : bool := like (Py.lower p) (Py.lower s).

(** A pattern without wildcard or escape characters. *)
Definition plain_char (c : ascii) : bool :=
  negb (any_run c || any_one c || (c =? "\")%char).

Definition plain (p : string) : bool := forallb plain_char (Py.chars p).

(** The rows a request selects. A null genre matches no pattern. *)
Definition answer (q : Request) (table : list Row) : list Row :=
  match q with
  | SelectGenre =>
      map (fun row =>
             [("genre", match lookup "genre" row with
                        | Some v => v
                        | None => VNull
                        end)]) table
  | SelectIlike pattern =>
      filter (fun row =>
                match genre_of row with
                | Some g => ilike pattern g
                | None => false
                end) table
  end.

End Postgres.

(** [....execute()]: the request is sent; it fails with the client's error
    when the service is down for it, else [response.data] comes back, the
    empty list standing for a missing one as well (both count as false). *)
Definition execute (q : Request) : M World (list Row) :=
  fun w =>
    let n := List.length (db_journal w) in
    if db_down w n
    then (Raise APIError, log_request q w)
    else (Ok (Postgres.answer q (documents w)), log_request q w).

(** [self.llm.invoke([SystemMessage(...), HumanMessage(...)]).content] *)
Definition invoke_model (sys usr : string) : M World string :=
  fun w =>
    let n := List.length (chat_journal w) in
    match chat w n sys usr with
    | Some content => (Ok content, log_chat sys usr w)
    | None => (Raise ProviderError, log_chat sys usr w)
    end.

(* ================================================================== *)
(** ** The service classes *)

(** What [RecommendationWorkflow] uses of the two objects it is given. *)
Record LLMClient (W : Type) : Type := {
  get_response : string -> string -> M W string
}.

Record DBClient (W : Type) : Type := {
  get_available_categories : M W (list string);
  query_documents : list string -> M W (list Row)
}.

Module Database.

(** [{item["genre"].lower() for item in response.data}], before the set
    drops the repeats. *)
Definition genre_labels (data : list Row) : result (list string) :=
  comprehension
    (fun item =>
       match getitem "genre" item with
       | Ok v => value_lower v
       | Raise e => Raise e
       end) data.

Definition get_available_categories : M World (list string) :=
  try (data <- execute SelectGenre ;;
       if Py.truthy_list data
       then (labels <- lift (genre_labels data) ;;
             fun w => (Ok (iterate (set_order w) labels), w))
       else ret [])
  except (fun _ => raise (HTTPException 500 "Error fetching categories.")).

(** The loop of [query_documents], [all_data] being the list built so far. *)
Fixpoint query_loop (genres : list string) (all_data : list Row)
  : M World (list Row) :=
  match genres with
  | [] => ret all_data
  | genre :: rest =>
      data <- execute (SelectIlike genre) ;;
      query_loop rest (if Py.truthy_list data then all_data ++ data else all_data)
  end.

Definition query_documents (genres : list string) : M World (list Row) :=
  try (query_loop genres [])
  except (fun _ => raise (HTTPException 500 "Database query error.")).

End Database.

Module LLMService.

Definition get_response (system_prompt user_input : string) : M World string :=
  try (invoke_model system_prompt user_input)
  except (fun _ => raise (HTTPException 500 "LLM processing error.")).

End LLMService.

(** [db = Database()] and [llm_service = LLMService()] *)
Definition db : DBClient World :=
  {| get_available_categories := Database.get_available_categories;
     query_documents := Database.query_documents |}.

Definition llm_service : LLMClient World :=
  {| get_response := LLMService.get_response |}.

(* ================================================================== *)
(** ** The recommendation workflow *)

(** The state dictionary the graph threads through the agents. *)
Record State : Type := {
  user_input : string;
  user_preferences : string;
  retrieved_items : list Row;
  filtered_recommendations : string;
  final_response : string
}.

Definition set_user_preferences (v : string) (st : State) : State :=
  {| user_input := user_input st;
     user_preferences := v;
     retrieved_items := retrieved_items st;
     filtered_recommendations := filtered_recommendations st;
     final_response := final_response st |}.

Definition set_retrieved_items (v : list Row) (st : State) : State :=
  {| user_input := user_input st;
     user_preferences := user_preferences st;
     retrieved_items := v;
     filtered_recommendations := filtered_recommendations st;
     final_response := final_response st |}.

Definition set_filtered_recommendations (v : string) (st : State) : State :=
  {| user_input := user_input st;
     user_preferences := user_preferences st;
     retrieved_items := retrieved_items st;
     filtered_recommendations := v;
     final_response := final_response st |}.

Definition set_final_response (v : string) (st : State) : State :=
  {| user_input := user_input st;
     user_preferences := user_preferences st;
     retrieved_items := retrieved_items st;
     filtered_recommendations := filtered_recommendations st;
     final_response := v |}.

(** The nodes added by [_build_workflow], and where an edge can lead. *)
Inductive Node : Type :=
| UserInteraction    (* "User Interaction" *)
| Retrieval          (* "Retrieval" *)
| Filtering          (* "Filtering" *)
| FinalResponse.     (* "Final Response" *)

Inductive Target : Type :=
| Goto (n : Node)
| END.

Definition dquote : string := String (ascii_of_nat 34) "".

Definition newline : string := String (ascii_of_nat 10) "".

Definition user_interaction_prompt : string :=
  "You are a friendly and helpful assistant. Your ONLY job is to collect user preferences for movies and books. Return the preferences in a clear, concise sentence.  For example: "
  ++ dquote ++ "The user likes sci-fi movies and fantasy books." ++ dquote
  ++ "  Do not provide recommendations yet. Just collect preferences.".

Definition filtering_prompt : string :=
  "You are a helpful assistant that filters recommendations based on user preferences."
  ++ newline
  ++ "                            Return only the recommendations that closely match the user's expressed interests."
  ++ newline
  ++ "                            If no recommendations match the user preferences, return "
  ++ dquote ++ "No recommendations found" ++ dquote ++ ".".

Definition final_response_prompt : string :=
  "Format the recommendations in an engaging way.  Include titles and authors/directors where available.".

(** The f-string of [filtering_agent] for one item; the four subscripts
    are evaluated from left to right. *)
Definition format_item (item : Row) : result string :=
  match getitem "title" item with
  | Raise e => Raise e
  | Ok title =>
  match getitem "author" item with
  | Raise e => Raise e
  | Ok author =>
  match getitem "director" item with
  | Raise e => Raise e
  | Ok director =>
  match getitem "genre" item with
  | Raise e => Raise e
  | Ok genre =>
      Ok ("Title: " ++ value_str title ++ ", Author: " ++ value_str author
          ++ ", Director: " ++ value_str director
          ++ ", Genre: " ++ value_str genre)%string
  end end end end.

(** LangGraph's default bound on the number of steps of one invocation. *)
Definition recursion_limit : nat := 25.

Section RecommendationWorkflow.

Context {W : Type}.
Variable llm : LLMClient W.
Variable db : DBClient W.

(** Each agent is a [try] block around its call to a service; the handler
    logs the error and the agent returns the state as it is. *)
Definition user_interaction_try (state : State) : M W State :=
  prefs <- get_response llm user_interaction_prompt (user_input state) ;;
  ret (set_user_preferences prefs state).

Definition user_interaction_agent (state : State) : M W State :=
  try (user_interaction_try state) except (fun _ => ret state).

(** [[category for category in available_categories
      if category in user_preferences]] *)
Definition select_categories (available : list string) (prefs : string)
  : list string :=
  let user_preferences := Py.split (Py.lower prefs) in
  filter (fun category => Py.contains category user_preferences) available.

Definition retrieval_try (state : State) : M W State :=
  available_categories <- get_available_categories db ;;
  let selected_categories :=
    select_categories available_categories (user_preferences state) in
  items <- (if Py.truthy_list selected_categories
            then query_documents db selected_categories
            else ret []) ;;
  ret (set_retrieved_items items state).

Definition retrieval_agent (state : State) : M W State :=
  try (retrieval_try state) except (fun _ => ret state).

(** The items are formatted before the [try] block is entered. *)
Definition format_items (items : list Row) : result string :=
  match comprehension format_item items with
  | Ok lines => Ok (Py.join newline lines)
  | Raise e => Raise e
  end.

Definition filtering_try (state : State) (formatted_items : string)
  : M W State :=
  filtered <- get_response llm filtering_prompt
                ("User preferences: " ++ user_preferences state ++ newline
                 ++ "Items:" ++ newline ++ formatted_items)%string ;;
  ret (set_filtered_recommendations filtered state).

Definition filtering_agent (state : State) : M W State :=
  formatted_items <- lift (format_items (retrieved_items state)) ;;
  try (filtering_try state formatted_items) except (fun _ => ret state).

Definition final_response_try (state : State) : M W State :=
  response <- get_response llm final_response_prompt
                ("Here are the recommendations: "
                 ++ filtered_recommendations state)%string ;;
  ret (set_final_response response state).

Definition final_response_agent (state : State) : M W State :=
  try (final_response_try state) except (fun _ => ret state).

(** [_build_workflow]: the agent behind each node, the entry point and
    the edges. *)
Definition agent (n : Node) : State -> M W State :=
  match n with
  | UserInteraction => user_interaction_agent
  | Retrieval => retrieval_agent
  | Filtering => filtering_agent
  | FinalResponse => final_response_agent
  end.

Definition entry_point : Node := UserInteraction.

Definition next (n : Node) (state : State) : Target :=
  match n with
  | UserInteraction =>
      if Py.truthy_str (user_preferences state)
      then Goto Retrieval else Goto FinalResponse
  | Retrieval =>
      if Py.truthy_list (retrieved_items state)
      then Goto Filtering else Goto FinalResponse
  | Filtering => Goto FinalResponse
  | FinalResponse => END
  end.

(** The compiled graph: run the node, follow its edge on the state the
    node returned, stop at [END]. Next to the final state it returns the
    steps taken: each node visited with the state that node returned. *)
Fixpoint drive (fuel : nat) (at_ : Target) (state : State)
  : M W (list (Node * State) * State) :=
  match at_ with
  | END => ret ([], state)
  | Goto n =>
      match fuel with
      | O => raise GraphRecursionError
      | S fuel' =>
          state' <- agent n state ;;
          rest <- drive fuel' (next n state') state' ;;
          ret ((n, state') :: fst rest, snd rest)
      end
  end.

Definition invoke_traced (state : State)
  : M W (list (Node * State) * State) :=
  drive recursion_limit (Goto entry_point) state.

(** [self.workflow.compile().invoke(initial_state)] *)
Definition invoke (state : State) : M W State :=
  r <- invoke_traced state ;; ret (snd r).

Definition run (input : string) : M W string :=
  let initial_state :=
    {| user_input := input; user_preferences := ""; retrieved_items := [];
       filtered_recommendations := ""; final_response := "" |} in
  response <- invoke initial_state ;;
  ret (final_response response).

Definition get_state (input : string) : M W State :=
  let initial_state :=
    {| user_input := input; user_preferences := ""; retrieved_items := [];
       filtered_recommendations := ""; final_response := "" |} in
  invoke initial_state.

End RecommendationWorkflow.

(** [recommender = RecommendationWorkflow(llm_service, db)] *)
Definition recommend (input : string) : M World string :=
  run llm_service db input.

Definition recommend_state (input : string) : M World State :=
  get_state llm_service db input.

(* ================================================================== *)
(** ** A small catalogue to run the code on *)

Module Sample.

Definition item (title author director genre : string) : Row :=
  [("title", VStr title); ("author", VStr author);
   ("director", VStr director); ("genre", VStr genre)].

Definition dune : Row := item "Dune" "Frank Herbert" "" "Sci-Fi".
Definition alien : Row := item "Alien" "" "Ridley Scott" "sci-fi".
Definition solaris : Row := item "Solaris" "Stanislaw Lem" "" "SCI-FI".
Definition hobbit : Row := item "The Hobbit" "J. R. R. Tolkien" "" "Fantasy".
Definition earthsea : Row := item "A Wizard of Earthsea" "Ursula K. Le Guin" "" "fantasy".

(** Three sci-fi and two fantasy items, interleaved. *)
Definition table : list Row := [dune; hobbit; alien; earthsea; solaris].

(** A row of a table that has no [director] column. *)
Definition untitled : Row :=
  [("title", VStr "Untitled"); ("author", VStr "Anon"); ("genre", VStr "noir")].

(** A row whose genre is null. *)
Definition unlabelled : Row :=
  [("title", VStr "X"); ("author", VNull); ("director", VNull); ("genre", VNull)].

(** A chat model that answers every invocation with the same text. *)
Definition parrot (reply : string) : nat -> string -> string -> option string :=
  fun _ _ _ => Some reply.

(** A chat model that is unreachable. *)
Definition silent : nat -> string -> string -> option string :=
  fun _ _ _ => None.

Definition world (table : list Row) (down : nat -> bool)
           (model : nat -> string -> string -> option string) : World :=
  {| documents := table;
     db_down := down;
     db_journal := [];
     chat := model;
     chat_journal := [];
     set_order := scan_order |}.

(** The same world under an interpreter that hands out sets the other way
    round. *)
Definition reversed (w : World) : World :=
  {| documents := documents w;
     db_down := db_down w;
     db_journal := db_journal w;
     chat := chat w;
     chat_journal := chat_journal w;
     set_order := reverse_order |}.

Definition up : nat -> bool := fun _ => false.

(** Only the request number [k] fails. *)
Definition down_at (k : nat) : nat -> bool := Nat.eqb k.

End Sample.

(* ================================================================== *)
(** ** Vocabulary of the statements *)

(** The state a run starts from: the input and every other field at its
    empty default. *)
Definition initial_state (input : string) : State :=
  {| user_input := input;
     user_preferences := "";
     retrieved_items := [];
     filtered_recommendations := "";
     final_response := "" |}.

(** The one field each node assigns, and the value the field starts with. *)
Inductive FieldValue : Type :=
| Text (s : string)
| Items (l : list Row).

Definition own_field (n : Node) (st : State) : FieldValue :=
  match n with
  | UserInteraction => Text (user_preferences st)
  | Retrieval => Items (retrieved_items st)
  | Filtering => Text (filtered_recommendations st)
  | FinalResponse => Text (final_response st)
  end.

Definition default_field (n : Node) : FieldValue :=
  match n with
  | Retrieval => Items []
  | _ => Text ""
  end.

(** Two states agree on every field but the one node [n] assigns. *)
Definition same_but_own (n : Node) (a b : State) : Prop :=
  user_input a = user_input b /\
  forall m, m <> n -> own_field m a = own_field m b.

(** The position of a node along the graph. *)
Definition rank (n : Node) : nat :=
  match n with
  | UserInteraction => 0
  | Retrieval => 1
  | Filtering => 2
  | FinalResponse => 3
  end.

(** An item as the Filtering stage needs it: the four columns are there. *)
Definition has_columns (item : Row) : Prop :=
  forall key, In key ["title"; "author"; "director"; "genre"] ->
              lookup key item <> None.

(** An item that lacks one of the four columns. *)
Definition lacks_column (item : Row) : Prop :=
  exists key, In key ["title"; "author"; "director"; "genre"] /\
              lookup key item = None.

(** One step of a run: the node, the state and world it started from, and
    the state and world it left. *)
Record Step (W : Type) : Type := {
  node : Node;
  before : State;
  world_before : W;
  after : State;
  world_after : W
}.

Section Runs.

Context {W : Type}.
Variable llm : LLMClient W.
Variable db : DBClient W.

(** The [try] block of node [n] raised on [st] in world [w], so the handler
    took over. *)
Definition stage_failed (n : Node) (st : State) (w : W) : Prop :=
  match n with
  | UserInteraction => is_ok (fst (user_interaction_try llm st w)) = false
  | Retrieval => is_ok (fst (retrieval_try db st w)) = false
  | Filtering =>
      match format_items (retrieved_items st) with
      | Ok formatted => is_ok (fst (filtering_try llm st formatted w)) = false
      | Raise _ => False
      end
  | FinalResponse => is_ok (fst (final_response_try llm st w)) = false
  end.

(** [exec at_ st w steps st' w']: started at [at_] with state [st] in
    world [w], the graph runs the nodes of [steps], none of which raises,
    and stops at [END] with state [st'] in world [w']. *)
Inductive exec : Target -> State -> W -> list (Step W) -> State -> W -> Prop :=
| exec_end st w : exec END st w [] st w
| exec_step n st w st1 w1 steps st' w' :
    agent llm db n st w = (Ok st1, w1) ->
    exec (next n st1) st1 w1 steps st' w' ->
    exec (Goto n) st w
         ({| node := n; before := st; world_before := w;
             after := st1; world_after := w1 |} :: steps) st' w'.

(** What the engine reports of a list of steps. *)
Definition trace_of (steps : list (Step W)) : list (Node * State) :=
  map (fun s => (node s, after s)) steps.

End Runs.

(** The world after the requests [qs] have gone out, in that order. *)
Definition log_requests (qs : list Request) (w : World) : World :=
  fold_left (fun w q => log_request q w) qs w.

(** Supabase answers the next [k] requests. *)
Definition up_for (k : nat) (w : World) : Prop :=
  forall i, i < k -> db_down w (List.length (db_journal w) + i) = false.

(** Supabase answers the next [k] requests and fails the one after. *)
Definition down_after (k : nat) (w : World) : Prop :=
  up_for k w /\ db_down w (List.length (db_journal w) + k) = true.

(** The rows whose genre label the pattern matches. *)
Definition matching (pattern : string) (table : list Row) : list Row :=
  Postgres.answer (SelectIlike pattern) table.

(** The row has a genre label: the column is there and holds text. *)
Definition labelled (row : Row) : Prop := genre_of row <> None.

(** The lower-cased genre labels of a table, row by row. *)
Definition labels_of (table : list Row) : list string :=
  flat_map (fun row => match genre_of row with
                       | Some g => [Py.lower g]
                       | None => []
                       end) table.

(** [c] is the lower-cased genre label of some row of the table. *)
Definition is_category (table : list Row) (c : string) : Prop :=
  exists row g, In row table /\ genre_of row = Some g /\ c = Py.lower g.

(** Following the specification's words for [QueryByCategories]: a
    case-insensitive partial match of each category against the stored
    genre labels, the matches accumulated in category order. *)
Fixpoint occurs_in (t s : string) : bool :=
  String.prefix t s ||
  match s with
  | EmptyString => false
  | String _ s' => occurs_in t s'
  end.

Definition spec_partial_match (category label : string) : bool :=
  occurs_in (Py.lower category) (Py.lower label).

Definition spec_QueryByCategories (categories : list string)
           (table : list Row) : list Row :=
  flat_map (fun category =>
              filter (fun row => match genre_of row with
                                 | Some g => spec_partial_match category g
                                 | None => false
                                 end) table) categories.

(** A list of steps follows the edges of the graph from [at_] to [END]. *)
Fixpoint follows_edges (at_ : Target) (steps : list (Node * State)) : Prop :=
  match steps with
  | [] => at_ = END
  | (n, st) :: rest => at_ = Goto n /\ follows_edges (next n st) rest
  end.

(* ================================================================== *)
(** ** What a run asks of the services *)

(** The user message Filtering sends, and the one Final Response sends. *)
Definition filtering_message (prefs formatted_items : string) : string :=
  ("User preferences: " ++ prefs ++ newline
   ++ "Items:" ++ newline ++ formatted_items)%string.

Definition final_message (filtered : string) : string :=
  ("Here are the recommendations: " ++ filtered)%string.

(** The invocations of the model, in order, of a run on [input] that ends
    in state [st]. *)
Definition invocations_of (input : string) (st : State)
  : list (string * string) :=
  (user_interaction_prompt, input)
  :: match retrieved_items st with
     | [] => []
     | _ :: _ =>
         match format_items (retrieved_items st) with
         | Ok text =>
             [(filtering_prompt, filtering_message (user_preferences st) text)]
         | Raise _ => []
         end
     end
  ++ [(final_response_prompt, final_message (filtered_recommendations st))].

(** The row has a genre label that, lower-cased, is a word of the
    lower-cased preferences. *)
Definition wanted (prefs : string) (row : Row) : bool :=
  match genre_of row with
  | Some g => Py.contains (Py.lower g) (Py.split (Py.lower prefs))
  | None => false
  end.

(** No genre label of the table holds a wildcard or escape character. *)
Definition plain_labels (table : list Row) : Prop :=
  forall row g, In row table -> genre_of row = Some g -> Postgres.plain g = true.

(* ================================================================== *)
(** ** Registration and login *)

(** What [sign_in_with_password] hands back when it returns: a session,
    or none, and the user. *)
Record SignIn (User : Type) : Type := {
  session : option string;     (* [response.session.access_token] *)
  user : User
}.

Section Auth.

(** The Supabase auth client: its world, the objects it returns, its two
    calls, and [str(e)] for the exceptions that reach a handler. *)
Context {A User Account : Type}.
Variable sign_up : string -> string -> option string -> M A Account.
Variable sign_in_with_password : string -> string -> M A (option (SignIn User)).
Variable str_of_exn : exn -> string.

(** The body shared by [AuthService.login] and the [/login] endpoint. *)
Definition sign_in (email password : string) : M A (string * User) :=
  try (response <- sign_in_with_password email password ;;
       match response with
       | Some r =>
           match session r with
           | Some access_token => ret (access_token, user r)
           | None => raise (HTTPException 400 "Invalid credentials")
           end
       | None => raise (HTTPException 400 "Invalid credentials")
       end)
  except (fun e => raise (HTTPException 400 (str_of_exn e))).

Definition AuthService_login (email password : string) : M A (string * User) :=
  sign_in email password.

Definition login_endpoint (email password : string) : M A (string * User) :=
  sign_in email password.

Definition AuthService_register (email password : string)
  : M A (string * Account) :=
  try (response <- sign_up email password None ;;
       ret ("User registered successfully!", response))
  except (fun e => raise (HTTPException 400 (str_of_exn e))).

Definition register_endpoint (email password : string)
  : M A (string * Account) :=
  try (response <- sign_up email password
                     (Some "http://localhost:8000/confirm") ;;
       ret ("User registered successfully! Please check your email for confirmation.",
            response))
  except (fun e => raise (HTTPException 400 (str_of_exn e))).

End Auth.

(* ================================================================== *)
(** ** Drawing the graph *)

Section Visualize.

(** Where the picture goes: the world of the renderer, the file system and
    the notebook display, and the three calls into it. *)
Context {V Image : Type}.
Variable draw_mermaid_png : M V Image.
Variable write_file : string -> Image -> M V unit.
Variable display : string -> M V unit.

Definition visualize_graph : M V unit :=
  try (img_data <- draw_mermaid_png ;;
       _ <- write_file "graph_image.png" img_data ;;
       display "graph_image.png")
  except (fun _ => ret tt).

(** The [/visualize_workflow] endpoint. *)
Definition visualize_workflow : M V string :=
  _ <- visualize_graph ;;
  ret "Workflow visualization generated!".

End Visualize.

(* ================================================================== *)
(** ** The Streamlit front end of [streamlit_ui.py] *)

Module UI.

(** What [response.json()] returns, and what the session and the screen
    hold. Numbers are integers here. An object is the parsed dictionary:
    each key once. *)
#[warnings="-register-all"] Inductive JSON : Type :=
| JNull
| JBool (b : bool)
| JNum (n : Z)
| JStr (s : string)
| JArr (items : list JSON)
| JObj (fields : list (string * JSON)).

(** The exceptions the page code can raise on such a value. *)
Inductive PyError : Type :=
| KeyError (key : string)
| TypeError
| AttributeError.

Fixpoint lookup_field (key : string) (fields : list (string * JSON))
  : option JSON :=
  match fields with
  | [] => None
  | (k, v) :: rest => if (k =? key)%string then Some v else lookup_field key rest
  end.

(** [v[key]] for a text key: only a dictionary can be indexed by text. *)
Definition subscript (v : JSON) (key : string) : JSON + PyError :=
  match v with
  | JObj fields =>
      match lookup_field key fields with
      | Some x => inl x
      | None => inr (KeyError key)
      end
  | _ => inr TypeError
  end.

(** [key in v]: a key of a dictionary, a part of a text, an element of a
    list; other values are not containers. *)
Definition contains_key (key : string) (v : JSON) : bool + PyError :=
  match v with
  | JObj fields =>
      inl (match lookup_field key fields with Some _ => true | None => false end)
  | JStr s => inl (occurs_in key s)
  | JArr items =>
      inl (existsb (fun x => match x with
                             | JStr s => (s =? key)%string
                             | _ => false
                             end) items)
  | _ => inr TypeError
  end.

(** [v.get(key, default)]: only a dictionary has the method. *)
Definition get_or (v : JSON) (key : string) (default : JSON) : JSON + PyError :=
  match v with
  | JObj fields =>
      inl (match lookup_field key fields with Some x => x | None => default end)
  | _ => inr AttributeError
  end.

(** Truth value. *)
Definition truthy (v : JSON) : bool :=
  match v with
  | JNull => false
  | JBool b => b
  | JNum n => negb (n =? 0)%Z
  | JStr s => negb (s =? "")%string
  | JArr items => Py.truthy_list items
  | JObj fields => Py.truthy_list fields
  end.

(** One call of [requests.post]. *)
Record HttpRequest : Type := {
  url : string;
  json_body : JSON;
  headers : list (string * string)
}.

(** What comes back: nothing (the connection failed), or a status with a
    body that is JSON or is not. *)
Inductive Reply : Type :=
| NoReply
| Replied (status : nat) (body : option JSON).

(** What a page puts on the screen. *)
Inductive Output : Type :=
| Title (s : string)
| Subheader (s : string)
| Write (v : JSON)
| Success (s : string)
| Error (v : JSON).

(** The entries of the sidebar menu. *)
Inductive Page : Type :=
| Home
| Register
| Login
| GetRecommendations
| GetAgentStates.

(** What the user did before a rerun of the script: the page chosen, the
    contents of the input widgets of that page, and whether its button was
    pressed. *)
Record Interaction : Type := {
  choice : Page;
  email : string;
  password : string;
  text : string;
  clicked : bool
}.

(** The front end and what it talks to: [Config.BACKEND_URL], the answer of
    the back end to the n-th request, the requests sent so far,
    [st.session_state["token"]] when it is set, and the screen. *)
Record Front : Type := {
  backend_url : string;
  server : nat -> HttpRequest -> Reply;
  sent : list HttpRequest;
  token : option JSON;
  screen : list Output
}.

Definition record_request (req : HttpRequest) (f : Front) : Front :=
  {| backend_url := backend_url f; server := server f;
     sent := sent f ++ [req]; token := token f; screen := screen f |}.

Definition set_token (t : JSON) (f : Front) : Front :=
  {| backend_url := backend_url f; server := server f;
     sent := sent f; token := Some t; screen := screen f |}.

Definition show (o : Output) (f : Front) : Front :=
  {| backend_url := backend_url f; server := server f;
     sent := sent f; token := token f; screen := screen f ++ [o] |}.

Definition clear (f : Front) : Front :=
  {| backend_url := backend_url f; server := server f;
     sent := sent f; token := token f; screen := [] |}.

(** [requests.post(url, json=..., headers=...)] *)
Definition post (req : HttpRequest) (f : Front) : Reply * Front :=
  (server f (List.length (sent f)) req, record_request req f).

(** [response.raise_for_status()] then [response.json()]: [None] stands for
    the [RequestException] raised when there is no reply, when the status
    is an error status, or when the body is not JSON. *)
Definition checked_json (r : Reply) : option JSON :=
  match r with
  | NoReply => None
  | Replied status body =>
      if Nat.leb 400 status && Nat.ltb status 600 then None else body
  end.

Definition error_object (message : string) : JSON :=
  JObj [("error", JStr message)].

Definition credentials (email password : string) : JSON :=
  JObj [("email", JStr email); ("password", JStr password)].

Definition register_user (email password : string) (f : Front) : JSON * Front :=
  let (response, f) :=
    post {| url := backend_url f ++ "/register";
            json_body := credentials email password;
            headers := [] |} f in
  (match checked_json response with
   | Some v => v
   | None => error_object "Registration failed. Please try again."
   end, f).

Definition login_user (email password : string) (f : Front) : JSON * Front :=
  let (response, f) :=
    post {| url := backend_url f ++ "/login";
            json_body := credentials email password;
            headers := [] |} f in
  (match checked_json response with
   | Some v => v
   | None => error_object "Login failed. Please check your credentials."
   end, f).

Section Pages.

(** [str(v)] for a value that is not text, as the f-string of the
    [Authorization] header prints it. *)
Variable str_value : JSON -> string.

Definition py_str (v : JSON) : string :=
  match v with
  | JStr s => s
  | _ => str_value v
  end.

Definition bearer (t : JSON) : list (string * string) :=
  [("Authorization", "Bearer " ++ py_str t)%string].

Definition get_recommendations (user_input : string) (t : JSON) (f : Front)
  : JSON * Front :=
  let (response, f) :=
    post {| url := backend_url f ++ "/recommend";
            json_body := JObj [("user_input", JStr user_input)];
            headers := bearer t |} f in
  (match checked_json response with
   | Some v => v
   | None => error_object "Failed to fetch recommendations."
   end, f).

Definition get_agent_states (user_input : string) (t : JSON) (f : Front)
  : JSON * Front :=
  let (response, f) :=
    post {| url := backend_url f ++ "/get_state";
            json_body := JObj [("user_input", JStr user_input)];
            headers := bearer t |} f in
  (match checked_json response with
   | Some v => v
   | None => error_object "Failed to fetch agent states."
   end, f).

(** [st.session_state.get("token", "")] *)
Definition session_token (f : Front) : JSON :=
  match token f with
  | Some t => t
  | None => JStr ""
  end.

(** One run of the script. It returns the exception that ended it, if one
    did; what was sent, stored and shown before stays. *)
Definition streamlit_ui (i : Interaction) (f : Front) : option PyError * Front :=
  let f := show (Title "AI-Powered Content Recommender") (clear f) in
  match choice i with
  | Home =>
      (None, show (Write (JStr "Welcome to the AI-powered recommendation system!")) f)
  | Register =>
      let f := show (Subheader "Create an Account") f in
      if clicked i then
        let (result, f) := register_user (email i) (password i) f in
        match subscript result "message" with
        | inl message => (None, show (Write message) f)
        | inr e => (Some e, f)
        end
      else (None, f)
  | Login =>
      let f := show (Subheader "Login to Your Account") f in
      if clicked i then
        let (result, f) := login_user (email i) (password i) f in
        match contains_key "access_token" result with
        | inr e => (Some e, f)
        | inl true =>
            match subscript result "access_token" with
            | inl t => (None, show (Success "Login Successful!") (set_token t f))
            | inr e => (Some e, f)
            end
        | inl false =>
            match get_or result "error" (JStr "Login failed.") with
            | inl message => (None, show (Error message) f)
            | inr e => (Some e, f)
            end
        end
      else (None, f)
  | GetRecommendations =>
      let f := show (Subheader "Get Personalized Recommendations") f in
      if clicked i then
        let t := session_token f in
        if truthy t then
          let (result, f) := get_recommendations (text i) t f in
          (None, show (Write result) f)
        else (None, show (Error (JStr "Please log in first.")) f)
      else (None, f)
  | GetAgentStates =>
      let f := show (Subheader "Get AI Agent States") f in
      if clicked i then
        let t := session_token f in
        if truthy t then
          let (result, f) := get_agent_states (text i) t f in
          (None, show (Write result) f)
        else (None, show (Error (JStr "Please log in first.")) f)
      else (None, f)
  end.

(** The front end after a series of interactions, each a rerun. *)
Fixpoint reruns (interactions : list Interaction) (f : Front) : Front :=
  match interactions with
  | [] => f
  | i :: rest => reruns rest (snd (streamlit_ui i f))
  end.

(** The back end answered the [k]-th request, a login, with an object
    holding [t] as its [access_token]. *)
Definition issued_at (f : Front) (k : nat) (t : JSON) : Prop :=
  exists req fields,
    nth_error (sent f) k = Some req /\
    url req = (backend_url f ++ "/login")%string /\
    checked_json (server f k req) = Some (JObj fields) /\
    lookup_field "access_token" fields = Some t.

(** The session [f] has grown out of [f0] soundly: the same back end, the
    requests of [f0] and more; the token, if any, was issued in answer to
    one of the new requests; and each new request with headers carries a
    token issued before it. *)
Definition grown_from (f0 f : Front) : Prop :=
  backend_url f = backend_url f0 /\
  server f = server f0 /\
  (exists more, sent f = sent f0 ++ more) /\
  (forall t, token f = Some t ->
     exists j, List.length (sent f0) <= j < List.length (sent f) /\
               issued_at f j t) /\
  (forall k req,
     nth_error (sent f) k = Some req -> List.length (sent f0) <= k ->
     headers req <> [] ->
     exists j t, List.length (sent f0) <= j < k /\ issued_at f j t /\
                 headers req = bearer t).

End Pages.

(** A back end that never answers, and one that answers every request with
    the same status and body. *)
Definition offline : nat -> HttpRequest -> Reply := fun _ _ => NoReply.

Definition always (status : nat) (body : JSON) : nat -> HttpRequest -> Reply :=
  fun _ _ => Replied status (Some body).

Definition fresh (answers : nat -> HttpRequest -> Reply) : Front :=
  {| backend_url := "http://localhost:8000"; server := answers;
     sent := []; token := None; screen := [] |}.

Definition visit (page : Page) (email password text : string) : Interaction :=
  {| choice := page; email := email; password := password;
     text := text; clicked := true |}.

End UI.

(* ================================================================== *)
(** * Properties *)

(** ** The code on the sample catalogue *)

Example split_example :
  Py.split (Py.lower " I like  Sci-Fi movies
and FANTASY books. ") =
  ["i"; "like"; "sci-fi"; "movies"; "and"; "fantasy"; "books."].
Proof. reflexivity. Qed.

Example ilike_examples :
  Postgres.ilike "sci-fi" "Sci-Fi" = true /\
  Postgres.ilike "sci" "Sci-Fi" = false /\
  Postgres.ilike "sci*" "Sci-Fi" = true /\
  Postgres.ilike "%FI" "Sci-Fi" = true /\
  Postgres.ilike "sci_fi" "Sci-Fi" = true.
Proof. repeat split. Qed.

Example format_item_example :
  format_item Sample.alien =
  Ok "Title: Alien, Author: , Director: Ridley Scott, Genre: sci-fi" /\
  format_item Sample.unlabelled =
  Ok "Title: X, Author: None, Director: None, Genre: None" /\
  format_item Sample.untitled = Raise (KeyError "director").
Proof. repeat split. Qed.

Example categories_example :
  let w := Sample.world Sample.table Sample.up Sample.silent in
  fst (Database.get_available_categories w) = Ok ["fantasy"; "sci-fi"] /\
  fst (Database.get_available_categories (Sample.reversed w)) =
  Ok ["sci-fi"; "fantasy"].
Proof. split; reflexivity. Qed.

Example run_example :
  let w := Sample.world Sample.table Sample.up (Sample.parrot "Fantasy and SCI-FI") in
  exists st w',
    recommend_state "I like fantasy and sci-fi" w = (Ok st, w') /\
    user_preferences st = "Fantasy and SCI-FI" /\
    retrieved_items st =
    [Sample.hobbit; Sample.earthsea; Sample.dune; Sample.alien; Sample.solaris] /\
    db_journal w' = [SelectGenre; SelectIlike "fantasy"; SelectIlike "sci-fi"] /\
    List.length (chat_journal w') = 3.
Proof.
  cbn zeta. eexists _, _. split; [vm_compute; reflexivity|].
  repeat split.
Qed.

(** ** The effect monad *)

Lemma bind_ok {W A B} (m : M W A) (k : A -> M W B) w a w' :
  m w = (Ok a, w') -> bind m k w = k a w'.
Proof. unfold bind; intros ->; reflexivity. Qed.

Lemma bind_raise {W A B} (m : M W A) (k : A -> M W B) w e w' :
  m w = (Raise e, w') -> bind m k w = (Raise e, w').
Proof. unfold bind; intros ->; reflexivity. Qed.

Lemma try_ok {W A} (m : M W A) h w a w' :
  m w = (Ok a, w') -> try_except m h w = (Ok a, w').
Proof. unfold try_except; intros ->; reflexivity. Qed.

Lemma try_raise {W A} (m : M W A) h w e w' :
  m w = (Raise e, w') -> try_except m h w = h e w'.
Proof. unfold try_except; intros ->; reflexivity. Qed.

(** ** Routing *)

Lemma last_cons_default {A} (l : list A) : forall x d,
  last (x :: l) d = last l x.
Proof.
  induction l as [|y l IH]; intros x d; [reflexivity|].
  change (last (x :: y :: l) d) with (last (y :: l) d).
  rewrite !IH. reflexivity.
Qed.

Section Routing.

Context {W : Type} (llm : LLMClient W) (db : DBClient W).

Lemma drive_follows_edges fuel : forall at_ st w steps st' w',
  drive llm db fuel at_ st w = (Ok (steps, st'), w') ->
  follows_edges at_ steps.
Proof.
  induction fuel as [|fuel IH]; intros at_ st w steps st' w' H.
  - destruct at_; cbn in H; [discriminate|].
    injection H as <- _ _; reflexivity.
  - destruct at_ as [n|]; cbn in H.
    + unfold bind in H.
      destruct (agent llm db n st w) as [[s1|e] w1]; [|discriminate].
      destruct (drive llm db fuel (next n s1) s1 w1) as [[[tr s2]|e] w2] eqn:E;
        [|discriminate].
      cbn in H. injection H as <- _ _.
      split; [reflexivity|]. eapply IH; eauto.
    + injection H as <- _ _; reflexivity.
Qed.

Lemma follows_edges_last : forall steps at_,
  follows_edges at_ steps -> at_ <> END ->
  exists front st, steps = front ++ [(FinalResponse, st)].
Proof.
  induction steps as [|[n st] rest IH]; intros at_ H Hne; cbn in H.
  - contradiction.
  - destruct H as [-> H].
    destruct rest as [|step rest'].
    + cbn in H. destruct n; cbn in H; try discriminate;
        try (destruct (Py.truthy_str _); discriminate);
        try (destruct (Py.truthy_list _); discriminate).
      exists [], st; reflexivity.
    + destruct (IH _ H) as (front & st' & E).
      * destruct step; cbn in H; destruct H as [-> _]; discriminate.
      * exists ((n, st) :: front), st'. rewrite E; reflexivity.
Qed.

Lemma drive_final_state fuel : forall at_ st w steps st' w',
  drive llm db fuel at_ st w = (Ok (steps, st'), w') ->
  st' = last (map snd steps) st.
Proof.
  induction fuel as [|fuel IH]; intros at_ st w steps st' w' H.
  - destruct at_; cbn in H; [discriminate|].
    injection H as <- <- _; reflexivity.
  - destruct at_ as [n|]; cbn in H.
    + unfold bind in H.
      destruct (agent llm db n st w) as [[s1|e] w1]; [|discriminate].
      destruct (drive llm db fuel (next n s1) s1 w1) as [[[tr s2]|e] w2] eqn:E;
        [|discriminate].
      cbn in H. injection H as <- <- _.
      apply IH in E. rewrite E. cbn [map snd].
      symmetry; apply last_cons_default.
    + injection H as <- <- _; reflexivity.
Qed.

(** A run that returns ends with Final Response. *)
Lemma drive_ends_with_final_response fuel n st w steps st' w' :
  drive llm db fuel (Goto n) st w = (Ok (steps, st'), w') ->
  exists front, steps = front ++ [(FinalResponse, st')].
Proof.
  intros H.
  pose proof (drive_follows_edges _ _ _ _ H) as F.
  pose proof (drive_final_state _ _ _ _ H) as L.
  destruct (follows_edges_last _ F) as (front & stl & E); [discriminate|].
  exists front. rewrite E in L |- *.
  rewrite map_app in L. cbn [map snd] in L. rewrite last_last in L.
  subst; reflexivity.
Qed.

End Routing.

(** C1. The graph starts at User Interaction and has exactly the edges of
    the transition table: from User Interaction to Retrieval when
    [user_preferences] is non-empty and to Final Response when it is empty;
    from Retrieval to Filtering when [retrieved_items] is non-empty and to
    Final Response when it is empty; from Filtering to Final Response; from
    Final Response to [END], and from nowhere else to [END]. Every
    invocation that returns has followed these edges from the entry point,
    and its last step is Final Response. *)
Theorem C1_transition_table :
  entry_point = UserInteraction /\
  (forall st, user_preferences st <> "" -> next UserInteraction st = Goto Retrieval) /\
  (forall st, user_preferences st = "" -> next UserInteraction st = Goto FinalResponse) /\
  (forall st, retrieved_items st <> [] -> next Retrieval st = Goto Filtering) /\
  (forall st, retrieved_items st = [] -> next Retrieval st = Goto FinalResponse) /\
  (forall st, next Filtering st = Goto FinalResponse) /\
  (forall st, next FinalResponse st = END) /\
  (forall n st, next n st = END -> n = FinalResponse) /\
  (forall W (llm : LLMClient W) (db : DBClient W) st w steps st' w',
     invoke_traced llm db st w = (Ok (steps, st'), w') ->
     follows_edges (Goto entry_point) steps /\
     exists front, steps = front ++ [(FinalResponse, st')]).
Proof.
  repeat split.
  - intros st H. cbn. unfold Py.truthy_str.
    destruct (String.eqb_spec (user_preferences st) ""); [contradiction|reflexivity].
  - intros st H. cbn. rewrite H. reflexivity.
  - intros st H. cbn. destruct (retrieved_items st); [contradiction|reflexivity].
  - intros st H. cbn. rewrite H. reflexivity.
  - intros n st H. destruct n; cbn in H; try discriminate; try reflexivity.
    + destruct (Py.truthy_str _); discriminate.
    + destruct (Py.truthy_list _); discriminate.
  - eapply drive_follows_edges; eassumption.
  - eapply drive_ends_with_final_response; eassumption.
Qed.

(** ** The agents, one at a time *)

Section Agents.

Context {W : Type} (llm : LLMClient W) (db : DBClient W).

Ltac run_agent H :=
  cbn [agent] in H;
  unfold user_interaction_agent, retrieval_agent, filtering_agent,
    final_response_agent, user_interaction_try, retrieval_try,
    filtering_try, final_response_try, try_except, bind, ret, lift in H.

Lemma same_but_own_refl n st : same_but_own n st st.
Proof. split; auto. Qed.

Lemma same_but_own_set n st v :
  v = match n with
      | UserInteraction => set_user_preferences
                             (match own_field n v with Text s => s | _ => "" end) st
      | Retrieval => set_retrieved_items
                       (match own_field n v with Items l => l | _ => [] end) st
      | Filtering => set_filtered_recommendations
                       (match own_field n v with Text s => s | _ => "" end) st
      | FinalResponse => set_final_response
                           (match own_field n v with Text s => s | _ => "" end) st
      end ->
  same_but_own n st v.
Proof.
  intros E. split.
  - rewrite E; destruct n; reflexivity.
  - intros m Hm. rewrite E.
    destruct n, m; try reflexivity; contradiction.
Qed.

(** An agent that returns has changed at most its own field. *)
Lemma agent_same_but_own n st w st' w' :
  agent llm db n st w = (Ok st', w') -> same_but_own n st st'.
Proof.
  intros H. destruct n; run_agent H.
  - destruct (get_response llm _ _ w) as [[p|e] w1];
      injection H as <- _; [|apply same_but_own_refl].
    apply same_but_own_set; reflexivity.
  - destruct (get_available_categories db w) as [[cats|e] w1];
      [|injection H as <- _; apply same_but_own_refl].
    destruct (Py.truthy_list _).
    + destruct (query_documents db _ w1) as [[items|e] w2];
        injection H as <- _; [|apply same_but_own_refl].
      apply same_but_own_set; reflexivity.
    + injection H as <- _. apply same_but_own_set; reflexivity.
  - destruct (format_items _) as [text|e]; [|discriminate].
    destruct (get_response llm _ _ w) as [[p|e] w1];
      injection H as <- _; [|apply same_but_own_refl].
    apply same_but_own_set; reflexivity.
  - destruct (get_response llm _ _ w) as [[p|e] w1];
      injection H as <- _; [|apply same_but_own_refl].
    apply same_but_own_set; reflexivity.
Qed.

(** An agent whose [try] block raised returns the state it was given. *)
Lemma agent_failed_unchanged n st w st' w' :
  agent llm db n st w = (Ok st', w') -> stage_failed llm db n st w -> st' = st.
Proof.
  intros H F. destruct n; cbn [stage_failed] in F; run_agent H.
  - unfold user_interaction_try, bind, ret in F.
    destruct (get_response llm _ _ w) as [[p|e] w1]; [discriminate|].
    injection H as <- _; reflexivity.
  - unfold retrieval_try, bind, ret in F.
    destruct (get_available_categories db w) as [[cats|e] w1];
      [|injection H as <- _; reflexivity].
    destruct (Py.truthy_list _).
    + destruct (query_documents db _ w1) as [[items|e] w2];
        [discriminate|injection H as <- _; reflexivity].
    + discriminate.
  - destruct (format_items _) as [text|e]; [|discriminate].
    unfold filtering_try, bind, ret in F.
    destruct (get_response llm _ _ w) as [[p|e] w1]; [discriminate|].
    injection H as <- _; reflexivity.
  - unfold final_response_try, bind, ret in F.
    destruct (get_response llm _ _ w) as [[p|e] w1]; [discriminate|].
    injection H as <- _; reflexivity.
Qed.

(** Every agent but Filtering returns, whatever the services do. *)
Lemma agent_returns n st w :
  n <> Filtering -> exists st' w', agent llm db n st w = (Ok st', w').
Proof.
  intros Hn. destruct n; [| |contradiction|]; cbn [agent];
    unfold user_interaction_agent, retrieval_agent, final_response_agent,
      user_interaction_try, retrieval_try, final_response_try,
      try_except, bind, ret.
  - destruct (get_response llm _ _ w) as [[p|e] w1]; eauto.
  - destruct (get_available_categories db w) as [[cats|e] w1]; eauto.
    destruct (Py.truthy_list _); eauto.
    destruct (query_documents db _ w1) as [[items|e] w2]; eauto.
  - destruct (get_response llm _ _ w) as [[p|e] w1]; eauto.
Qed.

End Agents.

(** ** Formatting the retrieved items *)

Lemma format_item_ok item :
  has_columns item -> exists line, format_item item = Ok line.
Proof.
  intros H. unfold format_item, getitem.
  destruct (lookup "title" item) eqn:E1;
    [|exfalso; apply (H "title"); cbn; auto 6].
  destruct (lookup "author" item) eqn:E2;
    [|exfalso; apply (H "author"); cbn; auto 6].
  destruct (lookup "director" item) eqn:E3;
    [|exfalso; apply (H "director"); cbn; auto 6].
  destruct (lookup "genre" item) eqn:E4;
    [|exfalso; apply (H "genre"); cbn; auto 6].
  eauto.
Qed.

Lemma format_item_raise item :
  lacks_column item ->
  exists key, In key ["title"; "author"; "director"; "genre"] /\
              lookup key item = None /\
              format_item item = Raise (KeyError key).
Proof.
  intros (k & Hk & E). unfold format_item, getitem.
  destruct (lookup "title" item) eqn:E1;
    [|exists "title"; cbn; auto 7].
  destruct (lookup "author" item) eqn:E2;
    [|exists "author"; cbn; auto 7].
  destruct (lookup "director" item) eqn:E3;
    [|exists "director"; cbn; auto 7].
  destruct (lookup "genre" item) eqn:E4;
    [|exists "genre"; cbn; auto 7].
  cbn in Hk.
  destruct Hk as [<-|[<-|[<-|[<-|[]]]]]; congruence.
Qed.

Lemma format_items_ok items :
  Forall has_columns items -> exists text, format_items items = Ok text.
Proof.
  unfold format_items. intros H.
  assert (exists lines, comprehension format_item items = Ok lines) as [ls ->];
    [|eauto].
  induction H as [|item items Hi _ [ls IH]]; cbn; [eauto|].
  destruct (format_item_ok Hi) as [line ->]. rewrite IH. eauto.
Qed.

Lemma format_item_cases item :
  (has_columns item /\ exists line, format_item item = Ok line) \/
  (exists key, In key ["title"; "author"; "director"; "genre"] /\
               lookup key item = None /\
               format_item item = Raise (KeyError key)).
Proof.
  unfold format_item, getitem.
  destruct (lookup "title" item) eqn:E1;
    [|right; exists "title"; cbn; auto 7].
  destruct (lookup "author" item) eqn:E2;
    [|right; exists "author"; cbn; auto 7].
  destruct (lookup "director" item) eqn:E3;
    [|right; exists "director"; cbn; auto 7].
  destruct (lookup "genre" item) eqn:E4;
    [|right; exists "genre"; cbn; auto 7].
  left. split; [|eauto].
  intros k Hk. cbn in Hk.
  destruct Hk as [<-|[<-|[<-|[<-|[]]]]]; congruence.
Qed.

Lemma format_items_raise items :
  Exists lacks_column items ->
  exists key, In key ["title"; "author"; "director"; "genre"] /\
              format_items items = Raise (KeyError key).
Proof.
  unfold format_items. intros H.
  assert (exists key, In key ["title"; "author"; "director"; "genre"] /\
                      comprehension format_item items = Raise (KeyError key))
    as (k & Hk & ->); [|eauto].
  induction items as [|item items IH]; [inversion H|].
  cbn. destruct (format_item_cases item) as [[Hc [line ->]]|(k & Hk & _ & ->)];
    [|exists k; split; [assumption|reflexivity]].
  assert (Exists lacks_column items) as H'.
  { inversion H as [? ? (k & Hk & E)|]; subst; [|assumption].
    exfalso. exact (Hc k Hk E). }
  destruct (IH H') as (k & Hk & ->).
  exists k; split; [assumption|reflexivity].
Qed.

Section FilteringFacts.

Context {W : Type} (llm : LLMClient W).

(** Filtering returns when every retrieved item has the four columns. *)
Lemma filtering_agent_returns st w :
  Forall has_columns (retrieved_items st) ->
  exists st' w', filtering_agent llm st w = (Ok st', w').
Proof.
  intros H. unfold filtering_agent, filtering_try, try_except, bind, ret, lift.
  destruct (format_items_ok H) as [text ->].
  destruct (get_response llm _ _ w) as [[p|e] w1]; eauto.
Qed.

(** Filtering raises, before it reaches its [try] block and without a call
    to the model, when a retrieved item lacks a column. *)
Lemma filtering_agent_raises st w :
  Exists lacks_column (retrieved_items st) ->
  exists key, In key ["title"; "author"; "director"; "genre"] /\
              filtering_agent llm st w = (Raise (KeyError key), w).
Proof.
  intros H. unfold filtering_agent, bind, lift.
  destruct (format_items_raise H) as (k & Hk & ->). eauto.
Qed.

End FilteringFacts.

(** ** Runs of the graph *)

Lemma next_rank n st m : next n st = Goto m -> rank n < rank m.
Proof.
  destruct n; cbn.
  - destruct (Py.truthy_str _); intros [= <-]; cbn; lia.
  - destruct (Py.truthy_list _); intros [= <-]; cbn; lia.
  - intros [= <-]; cbn; lia.
  - discriminate.
Qed.

Lemma rank_inj n m : rank n = rank m -> n = m.
Proof. destruct n, m; cbn; congruence. Qed.

Section Executions.

Context {W : Type} (llm : LLMClient W) (db : DBClient W).

Local Abbreviation exec := (exec llm db).

Lemma drive_agent_ok fuel n st w st1 w1 :
  agent llm db n st w = (Ok st1, w1) ->
  drive llm db (S fuel) (Goto n) st w =
  match drive llm db fuel (next n st1) st1 w1 with
  | (Ok rest, w') => (Ok ((n, st1) :: fst rest, snd rest), w')
  | (Raise e, w') => (Raise e, w')
  end.
Proof. intros A. cbn [drive]. unfold bind, ret. rewrite A. reflexivity. Qed.

Lemma drive_agent_raise fuel n st w e w1 :
  agent llm db n st w = (Raise e, w1) ->
  drive llm db (S fuel) (Goto n) st w = (Raise e, w1).
Proof. intros A. cbn [drive]. unfold bind. rewrite A. reflexivity. Qed.

(** The engine and the step relation describe the same runs. *)
Lemma drive_exec fuel : forall at_ st w tr st' w',
  drive llm db fuel at_ st w = (Ok (tr, st'), w') ->
  exists steps, exec at_ st w steps st' w' /\ tr = trace_of steps.
Proof.
  induction fuel as [|fuel IH]; intros at_ st w tr st' w' H.
  - destruct at_; cbn in H; [discriminate|].
    injection H as <- <- <-. exists []. split; [constructor|reflexivity].
  - destruct at_ as [n|]; cbn in H.
    + unfold bind in H.
      destruct (agent llm db n st w) as [[s1|e] w1] eqn:A; [|discriminate].
      destruct (drive llm db fuel (next n s1) s1 w1) as [[[tr1 s2]|e] w2] eqn:E;
        [|discriminate].
      cbn in H. injection H as <- <- <-.
      destruct (IH _ _ _ _ _ _ E) as (steps & X & ->).
      eexists (_ :: steps). split; [econstructor; eassumption|reflexivity].
    + injection H as <- <- <-. exists []. split; [constructor|reflexivity].
Qed.

Lemma exec_drive at_ st w steps st' w' :
  exec at_ st w steps st' w' ->
  forall fuel, List.length steps <= fuel ->
  drive llm db fuel at_ st w = (Ok (trace_of steps, st'), w').
Proof.
  induction 1 as [st w|n st w st1 w1 steps st' w' A X IH]; intros fuel L.
  - destruct fuel; reflexivity.
  - destruct fuel as [|fuel]; [cbn in L; lia|].
    cbn [drive]. unfold bind at 1. rewrite A.
    unfold bind at 1. rewrite IH by (cbn in L; lia). reflexivity.
Qed.

(** After node [n], only nodes further down the graph run. *)
Lemma exec_later at_ st w steps st' w' :
  exec at_ st w steps st' w' ->
  forall s, In s steps ->
  match at_ with Goto n => rank n <= rank (node s) | END => False end.
Proof.
  induction 1 as [st w|n st w st1 w1 steps st' w' A X IH]; intros s Hs.
  - contradiction.
  - destruct Hs as [<-|Hs]; [cbn; lia|].
    specialize (IH s Hs).
    destruct (next n st1) as [m|] eqn:E; [|contradiction].
    apply next_rank in E. lia.
Qed.

Lemma exec_length at_ st w steps st' w' :
  exec at_ st w steps st' w' ->
  List.length steps <= match at_ with Goto n => 4 - rank n | END => 0 end.
Proof.
  induction 1 as [st w|n st w st1 w1 steps st' w' A X IH]; [cbn; lia|].
  cbn [List.length].
  destruct (next n st1) as [m|] eqn:E.
  - apply next_rank in E.
    assert (rank m <= 3) by (destruct m; cbn; lia). lia.
  - assert (rank n <= 3) by (destruct n; cbn; lia). lia.
Qed.

(** No node runs twice. *)
Lemma exec_nodup at_ st w steps st' w' :
  exec at_ st w steps st' w' -> NoDup (map (@node W) steps).
Proof.
  induction 1 as [st w|n st w st1 w1 steps st' w' A X IH]; cbn [map node].
  - constructor.
  - constructor; [|exact IH].
    intros Hn. apply in_map_iff in Hn. destruct Hn as (s & Es & Hs).
    pose proof (exec_later X _ Hs) as L.
    destruct (next n st1) as [m|] eqn:E; [|contradiction].
    apply next_rank in E. rewrite Es in L. lia.
Qed.

(** No run changes the input, nor the field of a node it does not visit. *)
Lemma exec_preserves at_ st w steps st' w' :
  exec at_ st w steps st' w' ->
  user_input st' = user_input st /\
  forall m, (forall s, In s steps -> node s <> m) ->
            own_field m st' = own_field m st.
Proof.
  induction 1 as [st w|n st w st1 w1 steps st' w' A X [IHu IHf]].
  - split; auto.
  - destruct (agent_same_but_own _ _ _ _ _ A) as [Hu Hf]. split; [congruence|].
    intros m Hm. rewrite IHf by (intros s Hs; apply Hm; right; exact Hs).
    symmetry. apply Hf. intros ->. apply (Hm _ (or_introl eq_refl)). reflexivity.
Qed.

(** What holds of each step of a run: the step is a call of the node's
    agent, it changes at most the node's own field, and what it leaves in
    that field is still there when the run ends. *)
Lemma exec_steps at_ st w steps st' w' :
  exec at_ st w steps st' w' ->
  forall s, In s steps ->
  agent llm db (node s) (before s) (world_before s) = (Ok (after s), world_after s) /\
  same_but_own (node s) (before s) (after s) /\
  own_field (node s) (after s) = own_field (node s) st'.
Proof.
  induction 1 as [st w|n st w st1 w1 steps st' w' A X IH]; intros s Hs.
  - contradiction.
  - destruct Hs as [<-|Hs]; [|apply IH; exact Hs].
    cbn [node before after world_before world_after].
    split; [exact A|]. split; [eapply agent_same_but_own; exact A|].
    symmetry. apply (exec_preserves X). intros s Hs Es.
    pose proof (exec_later X _ Hs) as L.
    destruct (next n st1) as [m|] eqn:E; [|contradiction].
    apply next_rank in E. rewrite Es in L. lia.
Qed.

(** If the fields of the nodes still to come are at their defaults when a
    run starts, each node finds its own field at its default. *)
Lemma exec_default_on_entry at_ st w steps st' w' :
  exec at_ st w steps st' w' ->
  (forall m, match at_ with Goto n => rank n <= rank m | END => False end ->
             own_field m st = default_field m) ->
  forall s, In s steps -> own_field (node s) (before s) = default_field (node s).
Proof.
  induction 1 as [st w|n st w st1 w1 steps st' w' A X IH]; intros D s Hs.
  - contradiction.
  - destruct Hs as [<-|Hs]; [cbn; apply D; lia|].
    apply IH; [|exact Hs].
    intros m Hm. destruct (next n st1) as [k|] eqn:E; [|contradiction].
    apply next_rank in E.
    destruct (agent_same_but_own _ _ _ _ _ A) as [_ Hf].
    rewrite <- Hf by (intros ->; lia). apply D. lia.
Qed.

End Executions.

(** ** The Supabase client *)

Lemma log_requests_app qs1 qs2 w :
  log_requests (qs1 ++ qs2) w = log_requests qs2 (log_requests qs1 w).
Proof. unfold log_requests. apply fold_left_app. Qed.

Lemma log_requests_fields qs : forall w,
  documents (log_requests qs w) = documents w /\
  db_down (log_requests qs w) = db_down w /\
  db_journal (log_requests qs w) = db_journal w ++ qs /\
  chat (log_requests qs w) = chat w /\
  chat_journal (log_requests qs w) = chat_journal w /\
  set_order (log_requests qs w) = set_order w.
Proof.
  induction qs as [|q qs IH]; intros w.
  - cbn. rewrite app_nil_r. repeat split.
  - change (log_requests (q :: qs) w) with (log_requests qs (log_request q w)).
    destruct (IH (log_request q w)) as (-> & -> & -> & -> & -> & ->).
    cbn. rewrite <- app_assoc. repeat split.
Qed.

Lemma execute_up q w :
  up_for 1 w ->
  execute q w = (Ok (Postgres.answer q (documents w)), log_request q w).
Proof.
  intros U. unfold execute.
  specialize (U 0 (le_n 1)). rewrite Nat.add_0_r in U. rewrite U. reflexivity.
Qed.

Lemma execute_down q w :
  down_after 0 w -> execute q w = (Raise APIError, log_request q w).
Proof.
  intros [_ D]. unfold execute. rewrite Nat.add_0_r in D. rewrite D. reflexivity.
Qed.

Lemma execute_cases q w :
  execute q w = (Ok (Postgres.answer q (documents w)), log_request q w) \/
  execute q w = (Raise APIError, log_request q w).
Proof. unfold execute. destruct (db_down w _); auto. Qed.

Lemma up_for_next k q w : up_for (S k) w -> up_for 1 w /\ up_for k (log_request q w).
Proof.
  intros U. split.
  - intros i Hi. apply U. lia.
  - intros i Hi. cbn. rewrite length_app. cbn.
    replace (List.length (db_journal w) + 1 + i)
      with (List.length (db_journal w) + S i) by lia.
    apply U. lia.
Qed.

Lemma down_after_next k q w :
  down_after (S k) w -> up_for 1 w /\ down_after k (log_request q w).
Proof.
  intros [U D]. split; [apply (up_for_next q U)|]. split.
  - apply (up_for_next q U).
  - cbn. rewrite length_app. cbn.
    replace (List.length (db_journal w) + 1 + k)
      with (List.length (db_journal w) + S k) by lia.
    exact D.
Qed.

(** ** Text *)

Module PyFacts.

Import Py.

Lemma append_nil_r (s : string) : (s ++ "")%string = s.
Proof. induction s as [|c s IH]; cbn; [reflexivity|now rewrite IH]. Qed.

Lemma append_assoc (a b c : string) :
  ((a ++ b) ++ c)%string = (a ++ b ++ c)%string.
Proof. induction a as [|x a IH]; cbn; [reflexivity|now rewrite IH]. Qed.

Lemma append_eq_nil (a b : string) :
  (a ++ b)%string = "" -> a = "" /\ b = "".
Proof. destruct a; cbn; [auto|discriminate]. Qed.

(** Two ways of cutting the same text in two. *)
Lemma append_eq_append (a : string) : forall b c d,
  (a ++ b)%string = (c ++ d)%string ->
  (exists x, c = (a ++ x)%string /\ b = (x ++ d)%string) \/
  (exists y x, a = (c ++ String y x)%string /\ d = (String y x ++ b)%string).
Proof.
  induction a as [|k a IH]; intros b c d E; cbn in E.
  - left. exists c. auto.
  - destruct c as [|k' c]; cbn in E.
    + right. exists k, a. subst d. auto.
    + injection E as <- E.
      destruct (IH _ _ _ E) as [(x & -> & ->)|(y & x & -> & ->)].
      * left. exists x. auto.
      * right. exists y, x. auto.
Qed.

(** The last character of a text is the last character of each of its
    non-empty ends. *)
Lemma last_of_suffix (a : string) : forall z p d,
  (a ++ z)%string = (p ++ String d "")%string -> z <> "" ->
  exists p', z = (p' ++ String d "")%string.
Proof.
  induction a as [|k a IH]; intros z p d E Hz; cbn in E.
  - exists p. exact E.
  - destruct p as [|b p]; cbn in E.
    + injection E as _ E. apply append_eq_nil in E. destruct E; contradiction.
    + injection E as _ E. eapply IH; eassumption.
Qed.

Lemma chars_append (a b : string) : chars (a ++ b) = chars a ++ chars b.
Proof. induction a as [|c a IH]; cbn; [reflexivity|now rewrite IH]. Qed.

Lemma no_space_append (a b : string) :
  no_space (a ++ b) <-> no_space a /\ no_space b.
Proof. unfold no_space. rewrite chars_append. apply Forall_app. Qed.

Lemma no_space_cons c s :
  no_space (String c s) <-> isspace c = false /\ no_space s.
Proof.
  unfold no_space; cbn [chars]. split.
  - intros H; inversion H; auto.
  - intros [? ?]; constructor; auto.
Qed.

Lemma no_space_nil : no_space "".
Proof. constructor. Qed.

(** A text without whitespace has exactly one word: itself. *)
Lemma word_of_no_space w t :
  no_space w -> (word_of w t <-> w <> "" /\ t = w).
Proof.
  intros Hw. split.
  - intros (Ht & Hs & pre & post & E & L & R).
    assert (pre = "") as ->.
    { destruct L as [->|(p & c & -> & Hc)]; [reflexivity|].
      rewrite E in Hw. rewrite !no_space_append, no_space_cons in Hw.
      destruct Hw as [[_ [Hc' _]] _]. congruence. }
    assert (post = "") as ->.
    { destruct R as [->|(c & q & -> & Hc)]; [reflexivity|].
      rewrite E in Hw. rewrite !no_space_append, no_space_cons in Hw.
      destruct Hw as [_ [_ [Hc' _]]]. congruence. }
    cbn in E. rewrite append_nil_r in E. subst w. auto.
  - intros [Hne ->]. split; [assumption|]. split; [assumption|].
    exists "", "". cbn. rewrite append_nil_r. auto.
Qed.

(** The words of a text that starts with a word [w] and a whitespace. *)
Lemma word_of_after_space w c s t :
  no_space w -> isspace c = true ->
  (word_of (w ++ String c s) t <-> (w <> "" /\ t = w) \/ word_of s t).
Proof.
  intros Hw Hc. split.
  - intros (Ht & Hs & pre & post & E & L & R).
    destruct (append_eq_append _ _ _ _ E) as [(x & -> & E')|(y & x & -> & E')].
    + (* the word lies after [c] *)
      destruct x as [|k x]; cbn in E'.
      * destruct t as [|k t]; [contradiction|].
        cbn in E'. injection E' as <- _.
        apply no_space_cons in Hs. destruct Hs; congruence.
      * injection E' as <- ->. right.
        split; [assumption|]. split; [assumption|].
        exists x, post. split; [reflexivity|]. split; [|assumption].
        destruct L as [L|(p & d & L & Hd)].
        { apply append_eq_nil in L. destruct L; discriminate. }
        destruct x as [|k x]; [auto|]. right.
        destruct (@last_of_suffix (w ++ String c "") (String k x) p d)
          as [p' Ep]; [now rewrite append_assoc|discriminate|].
        exists p', d. auto.
    + (* the word starts inside [w] *)
      assert (pre = "") as ->.
      { destruct L as [->|(p & d & -> & Hd)]; [reflexivity|].
        rewrite !no_space_append, no_space_cons in Hw.
        destruct Hw as [[_ [Hd' _]] _]. congruence. }
      cbn [append] in Hw. left.
      assert (t = String y x) as ->; [|split; [discriminate|reflexivity]].
      symmetry in E'.
      destruct (@append_eq_append (String y x) (String c s) t post E')
        as [(z & Ez & Ep)|(k & z & Ez & Ep)].
      * destruct z as [|k z]; [now rewrite append_nil_r in Ez|].
        exfalso. cbn in Ep. injection Ep as <- _.
        rewrite Ez in Hs. apply no_space_append in Hs.
        destruct Hs as [_ Hs]. apply no_space_cons in Hs.
        destruct Hs; congruence.
      * exfalso. destruct R as [->|(d & q & -> & Hd)]; [discriminate|].
        cbn in Ep. injection Ep as -> _.
        rewrite Ez in Hw. apply no_space_append in Hw.
        destruct Hw as [_ Hw]. apply no_space_cons in Hw.
        destruct Hw; congruence.
  - intros [[Hne ->]|(Ht & Hs & pre & post & -> & L & R)].
    + split; [assumption|]. split; [assumption|].
      exists "", (String c s). cbn. split; [reflexivity|]. split; [auto|].
      right. exists c, s. auto.
    + split; [assumption|]. split; [assumption|].
      exists (w ++ String c pre)%string, post.
      split; [now rewrite append_assoc|]. split; [|assumption].
      right. destruct L as [->|(p & d & -> & Hd)].
      * exists w, c. auto.
      * exists (w ++ String c p)%string, d.
        split; [|assumption]. now rewrite append_assoc.
Qed.

Lemma split_from_words s : forall w t,
  no_space w -> (In t (split_from w s) <-> word_of (w ++ s) t).
Proof.
  induction s as [|c s IH]; intros w t Hw; cbn [split_from].
  - rewrite append_nil_r, (@word_of_no_space w t Hw).
    destruct (String.eqb_spec w ""); cbn; intuition congruence.
  - destruct (isspace c) eqn:Hc.
    + rewrite (@word_of_after_space w c s t Hw Hc), in_app_iff.
      rewrite (IH "" t no_space_nil). cbn [append].
      destruct (String.eqb_spec w ""); cbn; intuition congruence.
    + rewrite IH.
      * now rewrite append_assoc.
      * apply no_space_append. split; [assumption|].
        apply no_space_cons. split; [assumption|apply no_space_nil].
Qed.

(** [split] returns exactly the whole words of the text. *)
Lemma split_words s t : In t (split s) <-> word_of s t.
Proof. unfold split. now rewrite (@split_from_words s "" t no_space_nil). Qed.

Lemma contains_In x xs : contains x xs = true <-> In x xs.
Proof.
  unfold contains. rewrite existsb_exists. split.
  - intros (y & Hy & E). apply String.eqb_eq in E. now subst.
  - intros H. exists x. split; [assumption|apply String.eqb_refl].
Qed.

End PyFacts.

(** ** The [Database] class *)

Module DatabaseFacts.

Import Database.

Lemma truthy_append {A} (acc data : list A) :
  (if Py.truthy_list data then acc ++ data else acc) = acc ++ data.
Proof. destruct data; cbn; [now rewrite app_nil_r|reflexivity]. Qed.

(** While Supabase answers, the loop issues one request per genre and
    appends what each returns. *)
Lemma query_loop_up genres : forall all_data w,
  up_for (List.length genres) w ->
  query_loop genres all_data w =
  (Ok (all_data ++ flat_map (fun g => matching g (documents w)) genres),
   log_requests (map SelectIlike genres) w).
Proof.
  induction genres as [|g genres IH]; intros acc w U; cbn [query_loop].
  - cbn. rewrite app_nil_r. reflexivity.
  - destruct (up_for_next (SelectIlike g) U) as [U1 U2].
    unfold bind. rewrite (execute_up _ U1). rewrite truthy_append.
    rewrite IH by exact U2. cbn [flat_map map documents log_request].
    rewrite <- app_assoc. reflexivity.
Qed.

(** A request that fails ends the loop: what was gathered is dropped. *)
Lemma query_loop_down done : forall genre rest all_data w,
  down_after (List.length done) w ->
  query_loop (done ++ genre :: rest) all_data w =
  (Raise APIError, log_requests (map SelectIlike (done ++ [genre])) w).
Proof.
  induction done as [|g done IH]; intros genre rest acc w D;
    cbn [app query_loop].
  - unfold bind. rewrite (execute_down _ D). reflexivity.
  - destruct (down_after_next (SelectIlike g) D) as [U1 D2].
    unfold bind. rewrite (execute_up _ U1).
    rewrite IH by exact D2. reflexivity.
Qed.

Lemma query_documents_up genres w :
  up_for (List.length genres) w ->
  query_documents genres w =
  (Ok (flat_map (fun g => matching g (documents w)) genres),
   log_requests (map SelectIlike genres) w).
Proof.
  intros U. unfold query_documents.
  apply try_ok. now rewrite query_loop_up.
Qed.

Lemma query_documents_down done genre rest w :
  down_after (List.length done) w ->
  query_documents (done ++ genre :: rest) w =
  (Raise (HTTPException 500 "Database query error."),
   log_requests (map SelectIlike (done ++ [genre])) w).
Proof.
  intros D. unfold query_documents.
  erewrite try_raise; [reflexivity|]. now apply query_loop_down.
Qed.

(** Either every request of the loop is answered or one of them fails. *)
Lemma up_or_down k w :
  up_for k w \/ exists j, j < k /\ down_after j w.
Proof.
  induction k as [|k IH].
  - left. intros i Hi. lia.
  - destruct IH as [U|(j & Hj & D)].
    + destruct (db_down w (List.length (db_journal w) + k)) eqn:E.
      * right. exists k. split; [lia|]. split; assumption.
      * left. intros i Hi.
        destruct (Nat.eq_dec i k) as [->|]; [assumption|apply U; lia].
    + right. exists j. split; [lia|assumption].
Qed.

Lemma query_documents_cases genres w :
  (up_for (List.length genres) w /\
   query_documents genres w =
   (Ok (flat_map (fun g => matching g (documents w)) genres),
    log_requests (map SelectIlike genres) w)) \/
  (exists done genre rest,
     genres = done ++ genre :: rest /\ down_after (List.length done) w /\
     query_documents genres w =
     (Raise (HTTPException 500 "Database query error."),
      log_requests (map SelectIlike (done ++ [genre])) w)).
Proof.
  destruct (up_or_down (List.length genres) w) as [U|(j & Hj & D)].
  - left. split; [assumption|now apply query_documents_up].
  - right.
    destruct (nth_split genres "" Hj) as (done & rest & E & L).
    exists done, (nth j genres ""), rest.
    rewrite <- L in D. split; [assumption|]. split; [assumption|].
    rewrite E at 1. now apply query_documents_down.
Qed.

End DatabaseFacts.

Module CategoryFacts.

Import Database.

Lemma labelled_dec row : {labelled row} + {~ labelled row}.
Proof.
  unfold labelled. destruct (genre_of row); [left; discriminate|right; auto].
Qed.

Lemma in_labels_of table c : In c (labels_of table) <-> is_category table c.
Proof.
  unfold labels_of, is_category. rewrite in_flat_map. split.
  - intros (row & Hr & Hc). destruct (genre_of row) as [g|] eqn:E; [|contradiction].
    destruct Hc as [<-|[]]. eauto.
  - intros (row & g & Hr & E & ->). exists row. rewrite E. cbn; auto.
Qed.

(** The set comprehension over the rows [.select("genre")] returns. *)
Lemma genre_labels_cons row table :
  genre_labels (Postgres.answer SelectGenre (row :: table)) =
  match genre_of row with
  | Some g =>
      match genre_labels (Postgres.answer SelectGenre table) with
      | Ok labels => Ok (Py.lower g :: labels)
      | Raise e => Raise e
      end
  | None => Raise (AttributeError "lower")
  end.
Proof.
  unfold genre_labels, genre_of.
  cbn [Postgres.answer map comprehension]. unfold getitem at 1.
  cbn [lookup]. rewrite String.eqb_refl.
  destruct (lookup "genre" row) as [[g|]|]; reflexivity.
Qed.

(** The set comprehension over the rows [.select("genre")] returns. *)
Lemma genre_labels_text table :
  Forall labelled table ->
  genre_labels (Postgres.answer SelectGenre table) = Ok (labels_of table).
Proof.
  induction 1 as [|row table Hr _ IH]; [reflexivity|].
  rewrite genre_labels_cons, IH. unfold labels_of. cbn [flat_map].
  unfold labelled in Hr. destruct (genre_of row); [reflexivity|contradiction].
Qed.

Lemma genre_labels_null table :
  ~ Forall labelled table ->
  genre_labels (Postgres.answer SelectGenre table) = Raise (AttributeError "lower").
Proof.
  intros H. apply (neg_Forall_Exists_neg labelled_dec) in H.
  induction table as [|row table IH]; [inversion H|].
  rewrite genre_labels_cons.
  destruct (genre_of row) as [g|] eqn:G; [|reflexivity].
  rewrite IH; [reflexivity|].
  inversion H as [? ? Hn|]; subst; [|assumption].
  exfalso. apply Hn. unfold labelled. rewrite G. discriminate.
Qed.

Lemma iterate_nil o : iterate o [] = [].
Proof. apply Permutation_nil. apply Permutation_sym, (iterate_perm o). Qed.

Lemma iterate_NoDup o l : NoDup (iterate o l).
Proof.
  eapply Permutation_NoDup; [apply Permutation_sym, iterate_perm|].
  apply NoDup_nodup.
Qed.

Lemma iterate_In o l c : In c (iterate o l) <-> In c l.
Proof.
  rewrite <- (nodup_In string_dec l c). split; apply Permutation_in.
  - apply iterate_perm.
  - apply Permutation_sym, iterate_perm.
Qed.

Lemma categories_up w :
  up_for 1 w -> Forall labelled (documents w) ->
  get_available_categories w =
  (Ok (iterate (set_order w) (labels_of (documents w))),
   log_request SelectGenre w).
Proof.
  intros U L. unfold get_available_categories.
  apply try_ok. unfold bind. rewrite (execute_up _ U).
  destruct (Py.truthy_list _) eqn:T.
  - unfold lift. rewrite (genre_labels_text L). reflexivity.
  - destruct (documents w); [|discriminate].
    cbn. now rewrite iterate_nil.
Qed.

Lemma categories_down w :
  down_after 0 w ->
  get_available_categories w =
  (Raise (HTTPException 500 "Error fetching categories."),
   log_request SelectGenre w).
Proof.
  intros D. unfold get_available_categories.
  erewrite try_raise; [reflexivity|].
  unfold bind. now rewrite (execute_down _ D).
Qed.

Lemma categories_null w :
  up_for 1 w -> ~ Forall labelled (documents w) ->
  get_available_categories w =
  (Raise (HTTPException 500 "Error fetching categories."),
   log_request SelectGenre w).
Proof.
  intros U L. unfold get_available_categories.
  erewrite try_raise; [reflexivity|].
  unfold bind. rewrite (execute_up _ U).
  destruct (Py.truthy_list _) eqn:T.
  - unfold lift. rewrite (genre_labels_null L). reflexivity.
  - exfalso. apply L. destruct (documents w); [constructor|discriminate].
Qed.

Lemma up_for_1 w :
  up_for 1 w <-> db_down w (List.length (db_journal w)) = false.
Proof.
  split.
  - intros U. specialize (U 0 (le_n 1)). now rewrite Nat.add_0_r in U.
  - intros E i Hi. assert (i = 0) as -> by lia. now rewrite Nat.add_0_r.
Qed.

Lemma down_after_0 w :
  down_after 0 w <-> db_down w (List.length (db_journal w)) = true.
Proof.
  unfold down_after. rewrite Nat.add_0_r. split; [tauto|].
  intros E. split; [|assumption]. intros i Hi. lia.
Qed.

(** In every case one request goes out, and the answer is a list of
    categories or the HTTP error. *)
Lemma categories_cases w :
  (up_for 1 w /\ Forall labelled (documents w) /\
   get_available_categories w =
   (Ok (iterate (set_order w) (labels_of (documents w))),
    log_request SelectGenre w)) \/
  get_available_categories w =
  (Raise (HTTPException 500 "Error fetching categories."),
   log_request SelectGenre w).
Proof.
  destruct (db_down w (List.length (db_journal w))) eqn:E.
  - right. apply categories_down. now apply down_after_0.
  - apply up_for_1 in E.
    destruct (Forall_dec labelled labelled_dec (documents w)) as [L|L].
    + left. split; [assumption|]. split; [assumption|now apply categories_up].
    + right. now apply categories_null.
Qed.

End CategoryFacts.

(** ** Pattern matching on genre labels *)

Module PostgresFacts.

Import Postgres.

Lemma lower_char_idem c : Py.lower_char (Py.lower_char c) = Py.lower_char c.
Proof. destruct c as [[] [] [] [] [] [] [] []]; reflexivity. Qed.

Lemma lower_idem s : Py.lower (Py.lower s) = Py.lower s.
Proof.
  induction s as [|c s IH]; cbn; [reflexivity|].
  now rewrite lower_char_idem, IH.
Qed.

Lemma plain_char_lower c : plain_char (Py.lower_char c) = plain_char c.
Proof. destruct c as [[] [] [] [] [] [] [] []]; reflexivity. Qed.

Lemma plain_lower p : plain (Py.lower p) = plain p.
Proof.
  unfold plain. induction p as [|c p IH]; cbn; [reflexivity|].
  now rewrite plain_char_lower, IH.
Qed.

(** Without wildcards [LIKE] is equality. *)
Lemma like_plain p : forall s, plain p = true -> (like p s = true <-> p = s).
Proof.
  unfold plain. induction p as [|c p IH]; intros s H; cbn [like].
  - destruct s; split; congruence.
  - cbn in H. apply andb_true_iff in H. destruct H as [Hc Hp].
    unfold plain_char in Hc. apply negb_true_iff in Hc.
    apply orb_false_iff in Hc. destruct Hc as [Hc _].
    apply orb_false_iff in Hc. destruct Hc as [Hrun Hone].
    rewrite Hrun. destruct s as [|d s]; [split; discriminate|].
    rewrite Hone. cbn [orb]. rewrite andb_true_iff, (IH s Hp), Ascii.eqb_eq.
    split; [intros [-> ->]; reflexivity|intros [= -> ->]; auto].
Qed.

(** A pattern without wildcards matches a label only as a whole, up to
    case. *)
Lemma ilike_plain p g :
  plain p = true -> (ilike p g = true <-> Py.lower p = Py.lower g).
Proof.
  intros H. unfold ilike. apply like_plain. now rewrite plain_lower.
Qed.

(** Case plays no part in the match. *)
Lemma ilike_case p p' g g' :
  Py.lower p = Py.lower p' -> Py.lower g = Py.lower g' ->
  ilike p g = ilike p' g'.
Proof. unfold ilike. now intros -> ->. Qed.

Lemma in_matching p table row :
  In row (matching p table) <->
  In row table /\ exists g, genre_of row = Some g /\ ilike p g = true.
Proof.
  unfold matching. cbn [answer]. rewrite filter_In. split.
  - intros [Hr H]. split; [assumption|].
    destruct (genre_of row) as [g|]; [eauto|discriminate].
  - intros [Hr (g & -> & H)]. auto.
Qed.

End PostgresFacts.

(** ** The two entry points *)

Section EntryPoints.

Context {W : Type} (llm : LLMClient W) (db : DBClient W).

Lemma get_state_unfold input :
  get_state llm db input = invoke llm db (initial_state input).
Proof. reflexivity. Qed.

Lemma run_unfold input :
  run llm db input =
  (response <- invoke llm db (initial_state input) ;; ret (final_response response)).
Proof. reflexivity. Qed.

(** A run of the graph from the entry point is what both entry points
    return from. *)
Lemma exec_entry_points input w steps st' w' :
  exec llm db (Goto entry_point) (initial_state input) w steps st' w' ->
  invoke_traced llm db (initial_state input) w = (Ok (trace_of steps, st'), w') /\
  get_state llm db input w = (Ok st', w') /\
  run llm db input w = (Ok (final_response st'), w').
Proof.
  intros X.
  assert (invoke_traced llm db (initial_state input) w
          = (Ok (trace_of steps, st'), w')) as E.
  { apply (exec_drive X). pose proof (exec_length X) as L.
    cbn in L. unfold recursion_limit. lia. }
  split; [exact E|].
  rewrite run_unfold, get_state_unfold. unfold invoke, bind.
  rewrite E. split; reflexivity.
Qed.

Lemma get_state_exec input w st' w' :
  get_state llm db input w = (Ok st', w') ->
  exists steps,
    exec llm db (Goto entry_point) (initial_state input) w steps st' w'.
Proof.
  rewrite get_state_unfold. unfold invoke, bind, invoke_traced.
  destruct (drive llm db recursion_limit (Goto entry_point)
                  (initial_state input) w) as [[[tr s]|e] w1] eqn:E;
    [|discriminate].
  cbn. intros [= <- <-].
  destruct (drive_exec _ _ _ _ _ _ E) as (steps & X & _). eauto.
Qed.

(** In a run from the initial state, a node whose [try] block raised has
    left its field at the default, and the field is still there at the
    end. *)
Lemma exec_failed_default input w steps st' w' :
  exec llm db (Goto entry_point) (initial_state input) w steps st' w' ->
  forall s, In s steps ->
  stage_failed llm db (node s) (before s) (world_before s) ->
  own_field (node s) st' = default_field (node s).
Proof.
  intros X s Hs F.
  destruct (exec_steps X s Hs) as (A & _ & <-).
  rewrite (agent_failed_unchanged _ _ _ _ _ A F).
  apply (exec_default_on_entry X); [|exact Hs].
  intros m _. destruct m; reflexivity.
Qed.

End EntryPoints.

(** C8. [run] returns the [final_response] field of the state [get_state]
    returns: both invoke the compiled graph on the same initial state, in
    the same world, and both raise when the graph raises. *)
Theorem C8_run_returns_final_response_of_get_state
        (W : Type) (llm : LLMClient W) (db : DBClient W) (input : string) (w : W) :
  get_state llm db input w = invoke llm db (initial_state input) w /\
  run llm db input w =
  match get_state llm db input w with
  | (Ok st, w') => (Ok (final_response st), w')
  | (Raise e, w') => (Raise e, w')
  end.
Proof.
  split; [reflexivity|].
  rewrite run_unfold, get_state_unfold. unfold bind.
  destruct (invoke llm db (initial_state input) w) as [[st|e] w']; reflexivity.
Qed.

(** C7. In a run that returns, no node runs twice, every step changes at
    most the field of its own node (User Interaction [user_preferences],
    Retrieval [retrieved_items], Filtering [filtered_recommendations], Final
    Response [final_response]), what a step leaves in its field is what the
    final state holds there, and [user_input] is the input at every step and
    in the final state. *)
Theorem C7_state_is_append_only
        (W : Type) (llm : LLMClient W) (db : DBClient W)
        (input : string) (w : W) (st' : State) (w' : W) :
  get_state llm db input w = (Ok st', w') ->
  exists steps,
    exec llm db (Goto entry_point) (initial_state input) w steps st' w' /\
    NoDup (map (@node W) steps) /\
    (forall s, In s steps -> same_but_own (node s) (before s) (after s)) /\
    (forall s, In s steps ->
               own_field (node s) (after s) = own_field (node s) st') /\
    (forall s, In s steps ->
               user_input (before s) = input /\ user_input (after s) = input) /\
    user_input st' = input.
Proof.
  intros H. destruct (get_state_exec _ _ _ _ H) as (steps & X).
  exists steps. split; [exact X|].
  split; [apply (exec_nodup X)|].
  split; [intros s Hs; apply (exec_steps X s Hs)|].
  split; [intros s Hs; apply (exec_steps X s Hs)|].
  split; [|apply (exec_preserves X)].
  clear H. revert X. generalize (Goto entry_point).
  assert (user_input (initial_state input) = input) as U by reflexivity.
  revert U. generalize (initial_state input).
  intros st0 U at_ X. induction X as [st w|n st w st1 w1 steps st' w' A X IH].
  - intros s [].
  - pose proof (agent_same_but_own _ _ _ _ _ A) as [E _].
    intros s [<-|Hs]; cbn.
    + split; congruence.
    + apply IH; [congruence|exact Hs].
Qed.

(** C9. Filtering formats the retrieved items before its [try] block: when
    an item lacks one of [title], [author], [director], [genre], the agent
    raises [KeyError] without calling the model, whatever the model would
    have done, and a run that retrieves such an item raises the same error
    out of both entry points; the [try] block covers the call to the model
    only, so with complete items the agent returns even when the model
    fails, leaving [filtered_recommendations] as it was. *)
Theorem C9_filtering_formats_outside_try
        (W : Type) (llm : LLMClient W) (db : DBClient W) :
  (forall st w,
     Exists lacks_column (retrieved_items st) ->
     exists key, In key ["title"; "author"; "director"; "genre"] /\
                 filtering_agent llm st w = (Raise (KeyError key), w)) /\
  (forall st w,
     Forall has_columns (retrieved_items st) ->
     exists st' w', filtering_agent llm st w = (Ok st', w') /\
                    (stage_failed llm db Filtering st w -> st' = st)) /\
  (forall input w s1 w1 s2 w2,
     user_interaction_agent llm (initial_state input) w = (Ok s1, w1) ->
     user_preferences s1 <> "" ->
     retrieval_agent db s1 w1 = (Ok s2, w2) ->
     Exists lacks_column (retrieved_items s2) ->
     exists key, In key ["title"; "author"; "director"; "genre"] /\
                 get_state llm db input w = (Raise (KeyError key), w2) /\
                 run llm db input w = (Raise (KeyError key), w2)).
Proof.
  split; [|split].
  - intros st w H. apply filtering_agent_raises. exact H.
  - intros st w H.
    destruct (filtering_agent_returns llm st w H) as (st' & w' & E).
    exists st', w'. split; [exact E|].
    intros F. apply (agent_failed_unchanged llm db Filtering st w E F).
  - intros input w s1 w1 s2 w2 A1 P A2 H.
    destruct (filtering_agent_raises llm s2 w2 H) as (key & Hk & A3).
    exists key. split; [exact Hk|].
    assert (get_state llm db input w = (Raise (KeyError key), w2)) as G.
    { rewrite get_state_unfold.
      unfold invoke, invoke_traced, recursion_limit, entry_point, bind.
      rewrite (drive_agent_ok llm db 24 UserInteraction _ _ A1).
      assert (next UserInteraction s1 = Goto Retrieval) as ->.
      { cbn. unfold Py.truthy_str.
        destruct (String.eqb_spec (user_preferences s1) "");
          [contradiction|reflexivity]. }
      rewrite (drive_agent_ok llm db 23 Retrieval _ _ A2).
      assert (next Retrieval s2 = Goto Filtering) as ->.
      { cbn. destruct (retrieved_items s2); [inversion H|reflexivity]. }
      rewrite (drive_agent_raise llm db 22 Filtering _ _ A3).
      reflexivity. }
    split; [exact G|].
    rewrite run_unfold. rewrite get_state_unfold in G.
    unfold bind. rewrite G. reflexivity.
Qed.

(** ** The Retrieval agent, case by case *)

Section RetrievalCases.

Context {W : Type} (db : DBClient W).

Lemma retrieval_listing_failed st w e w1 :
  get_available_categories db w = (Raise e, w1) ->
  retrieval_agent db st w = (Ok st, w1).
Proof.
  intros E. unfold retrieval_agent, retrieval_try, try_except, bind.
  rewrite E. reflexivity.
Qed.

Lemma retrieval_none_selected st w cats w1 :
  get_available_categories db w = (Ok cats, w1) ->
  select_categories cats (user_preferences st) = [] ->
  retrieval_agent db st w = (Ok (set_retrieved_items [] st), w1).
Proof.
  intros E S. unfold retrieval_agent, retrieval_try, try_except, bind.
  rewrite E, S. reflexivity.
Qed.

Lemma retrieval_some_selected st w cats w1 r w2 :
  get_available_categories db w = (Ok cats, w1) ->
  select_categories cats (user_preferences st) <> [] ->
  query_documents db (select_categories cats (user_preferences st)) w1 = (r, w2) ->
  retrieval_agent db st w =
  (Ok match r with
      | Ok items => set_retrieved_items items st
      | Raise _ => st
      end, w2).
Proof.
  intros E S Q. unfold retrieval_agent, retrieval_try, try_except, bind.
  rewrite E. destruct (select_categories cats (user_preferences st));
    [contradiction|].
  cbn [Py.truthy_list]. rewrite Q. destruct r; reflexivity.
Qed.

End RetrievalCases.

(** ** The workflow on the two services of the application *)

Module App.

Import DatabaseFacts CategoryFacts.

Lemma get_response_cases sys usr w :
  LLMService.get_response sys usr w =
  (match chat w (List.length (chat_journal w)) sys usr with
   | Some content => Ok content
   | None => Raise (HTTPException 500 "LLM processing error.")
   end, log_chat sys usr w).
Proof.
  unfold LLMService.get_response, try_except, invoke_model.
  destruct (chat w _ sys usr); reflexivity.
Qed.

Lemma documents_log_requests qs w :
  documents (log_requests qs w) = documents w.
Proof. apply log_requests_fields. Qed.

(** No call to a service changes the table. *)
Lemma agent_documents n st w r w' :
  agent llm_service db n st w = (r, w') -> documents w' = documents w.
Proof.
  destruct n; cbn [agent].
  - unfold user_interaction_agent, user_interaction_try, try_except, bind.
    cbn [get_response llm_service]. rewrite get_response_cases.
    destruct (chat w _ _ _); intros [= _ <-]; reflexivity.
  - unfold retrieval_agent, retrieval_try, try_except, bind.
    cbn [get_available_categories query_documents db].
    destruct (categories_cases w) as [(_ & _ & ->)| ->];
      [|intros [= _ <-]; reflexivity].
    destruct (Py.truthy_list _).
    + destruct (query_documents_cases
                  (select_categories
                     (iterate (set_order w) (labels_of (documents w)))
                     (user_preferences st))
                  (log_request SelectGenre w))
        as [(_ & ->)|(done & genre & rest & _ & _ & ->)];
        intros [= _ <-]; now rewrite documents_log_requests.
    + intros [= _ <-]; reflexivity.
  - unfold filtering_agent, filtering_try, try_except, bind, lift.
    destruct (format_items _); [|intros [= _ <-]; reflexivity].
    cbn [get_response llm_service]. rewrite get_response_cases.
    destruct (chat w _ _ _); intros [= _ <-]; reflexivity.
  - unfold final_response_agent, final_response_try, try_except, bind.
    cbn [get_response llm_service]. rewrite get_response_cases.
    destruct (chat w _ _ _); intros [= _ <-]; reflexivity.
Qed.

Lemma matching_incl g table : incl (matching g table) table.
Proof. unfold matching. cbn. apply incl_filter. Qed.

(** What Retrieval stores comes from the table. *)
Lemma retrieved_from_table st w st' w' :
  agent llm_service db Retrieval st w = (Ok st', w') ->
  retrieved_items st' = retrieved_items st \/
  incl (retrieved_items st') (documents w).
Proof.
  cbn [agent]. unfold retrieval_agent, retrieval_try, try_except, bind.
  cbn [get_available_categories query_documents db].
  destruct (categories_cases w) as [(_ & _ & ->)| ->];
    [|intros [= <- _]; auto].
  destruct (Py.truthy_list _).
  - destruct (query_documents_cases
                (select_categories
                   (iterate (set_order w) (labels_of (documents w)))
                   (user_preferences st))
                (log_request SelectGenre w))
      as [(_ & ->)|(done & genre & rest & _ & _ & ->)];
      intros [= <- _]; [right|auto].
    cbn. intros row Hr. apply in_flat_map in Hr.
    destruct Hr as (g & _ & Hr). apply filter_In in Hr. apply Hr.
  - intros [= <- _]. right. cbn. intros row [].
Qed.

(** With a table whose rows have the four columns, the graph runs to
    [END] from every node. *)
Lemma exec_total k : forall n st w,
  4 - rank n <= k ->
  Forall has_columns (documents w) ->
  Forall has_columns (retrieved_items st) ->
  exists steps st' w', exec llm_service db (Goto n) st w steps st' w'.
Proof.
  induction k as [|k IH]; intros n st w Hk Hd Hi.
  - destruct n; cbn in Hk; lia.
  - assert (exists st1 w1, agent llm_service db n st w = (Ok st1, w1))
      as (st1 & w1 & A).
    { destruct n; try (apply agent_returns; discriminate).
      apply filtering_agent_returns. exact Hi. }
    assert (Forall has_columns (retrieved_items st1)) as Hi1.
    { destruct n.
      - destruct (agent_same_but_own _ _ _ _ _ A) as [_ F].
        specialize (F Retrieval). cbn in F.
        assert (Items (retrieved_items st) = Items (retrieved_items st1)) as E
            by (apply F; discriminate).
        injection E as <-. exact Hi.
      - destruct (retrieved_from_table _ _ A) as [->|I]; [exact Hi|].
        apply Forall_forall. intros row Hr.
        apply (proj1 (Forall_forall _ _) Hd). apply I. exact Hr.
      - destruct (agent_same_but_own _ _ _ _ _ A) as [_ F].
        specialize (F Retrieval). cbn in F.
        assert (Items (retrieved_items st) = Items (retrieved_items st1)) as E
            by (apply F; discriminate).
        injection E as <-. exact Hi.
      - destruct (agent_same_but_own _ _ _ _ _ A) as [_ F].
        specialize (F Retrieval). cbn in F.
        assert (Items (retrieved_items st) = Items (retrieved_items st1)) as E
            by (apply F; discriminate).
        injection E as <-. exact Hi. }
    assert (Forall has_columns (documents w1)) as Hd1
        by (rewrite (agent_documents _ _ _ A); exact Hd).
    destruct (next n st1) as [m|] eqn:E.
    + pose proof (next_rank _ _ E) as L.
      destruct (IH m st1 w1) as (steps & st' & w' & X);
        [lia|exact Hd1|exact Hi1|].
      eexists _, st', w'. econstructor; [exact A|]. rewrite E. exact X.
    + eexists _, st1, w1. econstructor; [exact A|]. rewrite E. constructor.
Qed.

End App.

(** ** Failures of the services *)




(** ** The empty input *)

Lemma user_interaction_no_preferences input w :
  chat w (List.length (chat_journal w)) user_interaction_prompt input = None \/
  chat w (List.length (chat_journal w)) user_interaction_prompt input = Some "" ->
  user_interaction_agent llm_service (initial_state input) w =
  (Ok (initial_state input), log_chat user_interaction_prompt input w).
Proof.
  intros H.
  unfold user_interaction_agent, user_interaction_try, try_except, bind.
  cbn [get_response llm_service]. rewrite App.get_response_cases.
  cbn [user_input initial_state].
  destruct H as [-> | ->]; reflexivity.
Qed.

Lemma final_response_cases st w :
  final_response_agent llm_service st w =
  (Ok match chat w (List.length (chat_journal w)) final_response_prompt
                  ("Here are the recommendations: " ++ filtered_recommendations st)
      with
      | Some r => set_final_response r st
      | None => st
      end,
   log_chat final_response_prompt
            ("Here are the recommendations: " ++ filtered_recommendations st) w).
Proof.
  unfold final_response_agent, final_response_try, try_except, bind.
  cbn [get_response llm_service]. rewrite App.get_response_cases.
  destruct (chat w _ _ _); reflexivity.
Qed.

(** C5, as the code has it. On the empty input the model is asked as on
    any other. When that invocation fails or answers with the empty text,
    [user_preferences] is empty, the run goes from User Interaction straight
    to Final Response without a request to Supabase, and [run] returns what
    the second invocation of the model answers to the empty list of
    recommendations, the empty text when that invocation fails. *)
Theorem C5_empty_input (w : World) :
  let n := List.length (chat_journal w) in
  chat w n user_interaction_prompt "" = None \/
  chat w n user_interaction_prompt "" = Some "" ->
  exists st w',
    invoke_traced llm_service db (initial_state "") w =
    (Ok ([(UserInteraction, initial_state ""); (FinalResponse, st)], st), w') /\
    recommend_state "" w = (Ok st, w') /\
    recommend "" w = (Ok (final_response st), w') /\
    user_preferences st = "" /\
    retrieved_items st = [] /\
    db_journal w' = db_journal w /\
    final_response st =
    match chat w (S n) final_response_prompt "Here are the recommendations: " with
    | Some r => r
    | None => ""
    end.
Proof.
  intros n H.
  pose proof (user_interaction_no_preferences "" w H) as A1.
  pose proof (final_response_cases (initial_state "")
                (log_chat user_interaction_prompt "" w)) as A2.
  cbn [chat chat_journal log_chat filtered_recommendations initial_state] in A2.
  rewrite length_app, Nat.add_1_r in A2. fold n in A2.
  cbn [append] in A2.
  assert (invoke_traced llm_service db (initial_state "") w =
          (Ok ([(UserInteraction, initial_state "");
                (FinalResponse,
                 match chat w (S n) final_response_prompt
                            "Here are the recommendations: " with
                 | Some r => set_final_response r (initial_state "")
                 | None => initial_state ""
                 end)],
               match chat w (S n) final_response_prompt
                          "Here are the recommendations: " with
               | Some r => set_final_response r (initial_state "")
               | None => initial_state ""
               end),
           log_chat final_response_prompt "Here are the recommendations: "
                    (log_chat user_interaction_prompt "" w))) as T.
  { unfold invoke_traced, recursion_limit, entry_point.
    rewrite (drive_agent_ok llm_service db 24 UserInteraction _ _ A1).
    change (next UserInteraction (initial_state "")) with (Goto FinalResponse).
    rewrite (drive_agent_ok llm_service db 23 FinalResponse _ _ A2).
    reflexivity. }
  eexists _, _. split; [exact T|].
  unfold recommend_state, recommend.
  rewrite run_unfold, get_state_unfold. unfold invoke, bind. rewrite T.
  cbn [snd ret].
  repeat split; destruct (chat w (S n) _ _); reflexivity.
Qed.

Lemma C5_empty_input_witness :
  exists st w',
    recommend_state "" (Sample.world Sample.table Sample.up Sample.silent)
    = (Ok st, w') /\ final_response st = "".
Proof.
  destruct (C5_empty_input (Sample.world Sample.table Sample.up Sample.silent))
    as (st & w' & _ & G & _ & _ & _ & _ & F).
  - left. reflexivity.
  - exists st, w'. split; [exact G|exact F].
Defined.

(** The claim fails as stated: on the empty input a model that answers
    gives non-empty preferences, the run goes on to Retrieval, and the
    response is not empty. *)
Lemma C5_counterexample :
  let w := Sample.world Sample.table Sample.up (Sample.parrot "The user likes fantasy") in
  exists st,
    fst (recommend_state "" w) = Ok st /\
    user_preferences st <> "" /\
    retrieved_items st <> [] /\
    fst (recommend "" w) = Ok "The user likes fantasy".
Proof.
  cbn zeta. eexists. split; [vm_compute; reflexivity|].
  cbn. repeat split; discriminate.
Qed.

(** ** The catalogue *)







(** ** Selecting the categories *)

Lemma select_categories_In available prefs c :
  In c (select_categories available prefs) <->
  In c available /\ Py.word_of (Py.lower prefs) c.
Proof.
  unfold select_categories. rewrite filter_In, PyFacts.contains_In.
  now rewrite PyFacts.split_words.
Qed.

Lemma selected_of_table w prefs c :
  In c (select_categories (iterate (set_order w) (labels_of (documents w))) prefs) <->
  is_category (documents w) c /\ Py.word_of (Py.lower prefs) c.
Proof.
  rewrite select_categories_In, CategoryFacts.iterate_In.
  now rewrite CategoryFacts.in_labels_of.
Qed.

Lemma nothing_in_nil {A} (l : list A) : (forall x, ~ In x l) -> l = [].
Proof.
  destruct l as [|x l]; [reflexivity|].
  intros H. exfalso. apply (H x). left. reflexivity.
Qed.

(** Retrieval while Supabase answers: the listing, then one query for the
    selected categories. *)
Lemma retrieval_up st w :
  let selected :=
    select_categories (iterate (set_order w) (labels_of (documents w)))
                      (user_preferences st) in
  up_for (1 + List.length selected) w ->
  Forall labelled (documents w) ->
  retrieval_agent db st w =
  (Ok (set_retrieved_items
         (flat_map (fun g => matching g (documents w)) selected) st),
   log_requests (SelectGenre :: map SelectIlike selected) w).
Proof.
  intros selected U L.
  destruct (up_for_next SelectGenre U) as [U1 U2].
  pose proof (CategoryFacts.categories_up U1 L) as C.
  destruct selected as [|g sel] eqn:S.
  - apply (retrieval_none_selected db st w C). exact S.
  - rewrite (retrieval_some_selected db st w C
               (r := Ok (flat_map (fun g => matching g (documents w)) (g :: sel)))
               (w2 := log_requests (map SelectIlike (g :: sel))
                                   (log_request SelectGenre w))).
    + reflexivity.
    + fold selected. rewrite S. discriminate.
    + fold selected. rewrite S.
      apply (DatabaseFacts.query_documents_up (g :: sel) U2).
Qed.


(** ** A query that fails midway *)

Lemma user_interaction_answered input w prefs :
  chat w (List.length (chat_journal w)) user_interaction_prompt input = Some prefs ->
  user_interaction_agent llm_service (initial_state input) w =
  (Ok (set_user_preferences prefs (initial_state input)),
   log_chat user_interaction_prompt input w).
Proof.
  intros H.
  unfold user_interaction_agent, user_interaction_try, try_except, bind.
  cbn [get_response llm_service]. rewrite App.get_response_cases.
  cbn [user_input initial_state]. rewrite H. reflexivity.
Qed.

Lemma select_categories_no_preferences available :
  select_categories available "" = [].
Proof.
  unfold select_categories.
  induction available as [|c l IH]; [reflexivity|exact IH].
Qed.

(** Retrieval when the query fails after [done]: the handler keeps the
    state as it was. *)
Lemma retrieval_down st w done genre rest :
  Forall labelled (documents w) ->
  select_categories (iterate (set_order w) (labels_of (documents w)))
                    (user_preferences st) = done ++ genre :: rest ->
  down_after (1 + List.length done) w ->
  retrieval_agent db st w =
  (Ok st, log_requests (SelectGenre :: map SelectIlike (done ++ [genre])) w).
Proof.
  intros L S D.
  destruct (down_after_next SelectGenre D) as [U1 D2].
  pose proof (CategoryFacts.categories_up U1 L) as C.
  rewrite (retrieval_some_selected db st w C
             (r := Raise (HTTPException 500 "Database query error."))
             (w2 := log_requests (map SelectIlike (done ++ [genre]))
                                 (log_request SelectGenre w))).
  - reflexivity.
  - rewrite S. destruct done; discriminate.
  - rewrite S. apply (@DatabaseFacts.query_documents_down done genre rest _ D2).
Qed.

(** C10. When the request for one genre fails after the requests for the
    genres before it were answered, [query_documents] raises the HTTP error
    500 and returns none of the rows gathered so far, whatever they were;
    Retrieval then returns the state unchanged, and the run ends with
    [retrieved_items] empty. *)
Theorem C10_query_failing_midway :
  (forall done genre rest w,
     down_after (List.length done) w ->
     Database.query_documents (done ++ genre :: rest) w =
     (Raise (HTTPException 500 "Database query error."),
      log_requests (map SelectIlike (done ++ [genre])) w)) /\
  (forall st w done genre rest,
     Forall labelled (documents w) ->
     select_categories (iterate (set_order w) (labels_of (documents w)))
                       (user_preferences st) = done ++ genre :: rest ->
     down_after (1 + List.length done) w ->
     retrieval_agent db st w =
     (Ok st, log_requests (SelectGenre :: map SelectIlike (done ++ [genre])) w)) /\
  (forall input w prefs done genre rest,
     chat w (List.length (chat_journal w)) user_interaction_prompt input = Some prefs ->
     Forall labelled (documents w) ->
     select_categories (iterate (set_order w) (labels_of (documents w))) prefs
     = done ++ genre :: rest ->
     down_after (1 + List.length done) w ->
     exists st w',
       recommend_state input w = (Ok st, w') /\
       user_preferences st = prefs /\
       retrieved_items st = [] /\
       db_journal w' =
       db_journal w ++ SelectGenre :: map SelectIlike (done ++ [genre])).
Proof.
  split; [exact DatabaseFacts.query_documents_down|].
  split; [exact retrieval_down|].
  intros input w prefs done genre rest P L S D.
  pose proof (user_interaction_answered input w P) as A1.
  set (s1 := set_user_preferences prefs (initial_state input)) in *.
  set (w1 := log_chat user_interaction_prompt input w) in *.
  assert (retrieval_agent db s1 w1 =
          (Ok s1, log_requests
                    (SelectGenre :: map SelectIlike (done ++ [genre])) w1)) as A2.
  { apply (@retrieval_down s1 w1 done genre rest); assumption. }
  set (w2 := log_requests (SelectGenre :: map SelectIlike (done ++ [genre])) w1) in *.
  pose proof (final_response_cases s1 w2) as A3.
  assert (prefs <> "") as Hp.
  { intros ->. rewrite select_categories_no_preferences in S.
    destruct done; discriminate. }
  eexists _, _. split.
  - unfold recommend_state. rewrite get_state_unfold.
    unfold invoke, invoke_traced, recursion_limit, entry_point, bind.
    rewrite (drive_agent_ok llm_service db 24 UserInteraction _ _ A1).
    assert (next UserInteraction s1 = Goto Retrieval) as ->.
    { cbn. unfold Py.truthy_str.
      destruct (String.eqb_spec prefs ""); [contradiction|reflexivity]. }
    rewrite (drive_agent_ok llm_service db 23 Retrieval _ _ A2).
    change (next Retrieval s1) with (Goto FinalResponse).
    rewrite (drive_agent_ok llm_service db 22 FinalResponse _ _ A3).
    reflexivity.
  - cbn [snd fst].
    split; [destruct (chat w2 _ _ _); reflexivity|].
    split; [destruct (chat w2 _ _ _); reflexivity|].
    cbn [db_journal log_chat]. unfold w2.
    destruct (log_requests_fields
                (SelectGenre :: map SelectIlike (done ++ [genre])) w1)
      as (_ & _ & -> & _).
    reflexivity.
Qed.

(** ** The theorems at work on the sample catalogue *)

Lemma C10_query_failing_midway_witness :
  exists st w',
    recommend_state "anything"
      (Sample.world Sample.table (Sample.down_at 2)
                    (Sample.parrot "sci-fi and fantasy")) = (Ok st, w') /\
    retrieved_items st = [] /\
    db_journal w' = [SelectGenre; SelectIlike "fantasy"; SelectIlike "sci-fi"].
Proof.
  destruct C10_query_failing_midway as (_ & _ & H).
  destruct (H "anything"
              (Sample.world Sample.table (Sample.down_at 2)
                            (Sample.parrot "sci-fi and fantasy"))
              "sci-fi and fantasy" ["fantasy"] "sci-fi" [])
    as (st & w' & G & _ & R & J).
  - reflexivity.
  - repeat constructor; discriminate.
  - reflexivity.
  - split; [|reflexivity].
    intros i Hi. destruct i as [|[|i]]; [reflexivity|reflexivity|cbn in Hi; lia].
  - exists st, w'. split; [exact G|]. split; [exact R|exact J].
Defined.

Lemma C1_transition_table_witness :
  next UserInteraction (set_user_preferences "sci-fi" (initial_state "")) = Goto Retrieval /\
  next UserInteraction (initial_state "") = Goto FinalResponse /\
  next Retrieval (set_retrieved_items [Sample.dune] (initial_state "")) = Goto Filtering /\
  next Retrieval (initial_state "") = Goto FinalResponse /\
  FinalResponse = FinalResponse /\
  exists steps st' w',
    invoke_traced llm_service db (initial_state "I like sci-fi")
      (Sample.world Sample.table Sample.up (Sample.parrot "sci-fi, please"))
    = (Ok (steps, st'), w') /\
    follows_edges (Goto entry_point) steps.
Proof.
  destruct C1_transition_table as (_ & H1 & H2 & H3 & H4 & _ & H5 & H6 & H7).
  split; [apply H1; discriminate|].
  split; [apply H2; reflexivity|].
  split; [apply H3; discriminate|].
  split; [apply H4; reflexivity|].
  split; [apply (H6 FinalResponse (initial_state "")); apply H5|].
  destruct (invoke_traced llm_service db (initial_state "I like sci-fi")
              (Sample.world Sample.table Sample.up (Sample.parrot "sci-fi, please")))
    as [[[steps st']|e] w'] eqn:E.
  - exists steps, st', w'. split; [reflexivity|]. apply (H7 _ _ _ _ _ _ _ _ E).
  - exfalso. vm_compute in E. discriminate.
Defined.

Lemma C7_state_is_append_only_witness :
  exists st w',
    get_state llm_service db "I like sci-fi"
      (Sample.world Sample.table Sample.up (Sample.parrot "sci-fi, please"))
    = (Ok st, w') /\
    user_input st = "I like sci-fi".
Proof.
  destruct (get_state llm_service db "I like sci-fi"
              (Sample.world Sample.table Sample.up (Sample.parrot "sci-fi, please")))
    as [[st|e] w'] eqn:E.
  - exists st, w'. split; [reflexivity|].
    destruct (C7_state_is_append_only _ _ _ _ E) as (_ & _ & _ & _ & _ & _ & U).
    exact U.
  - exfalso. vm_compute in E. discriminate.
Defined.

Lemma C9_filtering_formats_outside_try_witness :
  let w := Sample.world [Sample.untitled] Sample.up (Sample.parrot "noir please") in
  exists key w',
    filtering_agent llm_service
      (set_retrieved_items [Sample.dune; Sample.untitled] (initial_state "")) w
    = (Raise (KeyError key), w) /\
    get_state llm_service db "something dark" w = (Raise (KeyError key), w').
Proof.
  cbn zeta.
  destruct (C9_filtering_formats_outside_try llm_service db) as (H1 & _ & H3).
  edestruct (H3 "something dark"
               (Sample.world [Sample.untitled] Sample.up (Sample.parrot "noir please")))
    as (key & Hk & G & _).
  - vm_compute. reflexivity.
  - discriminate.
  - vm_compute. reflexivity.
  - cbn. left. exists "director". split; [cbn; auto|reflexivity].
  - destruct (H1 (set_retrieved_items [Sample.dune; Sample.untitled] (initial_state ""))
                 (Sample.world [Sample.untitled] Sample.up (Sample.parrot "noir please")))
      as (key' & Hk' & F).
    + right. left. exists "director". split; [cbn; auto|reflexivity].
    + assert (key' = "director") as ->.
      { vm_compute in F. injection F as <-. reflexivity. }
      assert (key = "director") as ->.
      { vm_compute in G. injection G as <-. reflexivity. }
      eexists "director", _. split; [exact F|exact G].
Defined.


(* ================================================================== *)
(** * Further properties of the workflow *)

(** ** The three shapes of a run *)

Lemma same_but_own_input n a b :
  same_but_own n a b -> user_input b = user_input a.
Proof. intros [E _]. now rewrite E. Qed.

Lemma same_but_own_preferences n a b :
  same_but_own n a b -> n <> UserInteraction ->
  user_preferences b = user_preferences a.
Proof.
  intros [_ F] Hn. specialize (F UserInteraction). cbn in F.
  assert (Text (user_preferences a) = Text (user_preferences b)) as E
      by (apply F; congruence).
  now injection E.
Qed.

Lemma same_but_own_items n a b :
  same_but_own n a b -> n <> Retrieval ->
  retrieved_items b = retrieved_items a.
Proof.
  intros [_ F] Hn. specialize (F Retrieval). cbn in F.
  assert (Items (retrieved_items a) = Items (retrieved_items b)) as E
      by (apply F; congruence).
  now injection E.
Qed.

Lemma same_but_own_filtered n a b :
  same_but_own n a b -> n <> Filtering ->
  filtered_recommendations b = filtered_recommendations a.
Proof.
  intros [_ F] Hn. specialize (F Filtering). cbn in F.
  assert (Text (filtered_recommendations a) = Text (filtered_recommendations b))
    as E by (apply F; congruence).
  now injection E.
Qed.

Section Shapes.

Context {W : Type} (llm : LLMClient W) (db : DBClient W).

(** A run that returns went through User Interaction and Final Response,
    with Retrieval between them when there were preferences and Filtering
    after Retrieval when there were items. *)
Lemma exec_shapes st0 w steps st' w' :
  exec llm db (Goto UserInteraction) st0 w steps st' w' ->
  exists s1 w1,
    user_interaction_agent llm st0 w = (Ok s1, w1) /\
    ((user_preferences s1 = "" /\
      final_response_agent llm s1 w1 = (Ok st', w')) \/
     (user_preferences s1 <> "" /\
      exists s2 w2,
        retrieval_agent db s1 w1 = (Ok s2, w2) /\
        ((retrieved_items s2 = [] /\
          final_response_agent llm s2 w2 = (Ok st', w')) \/
         (retrieved_items s2 <> [] /\
          exists s3 w3,
            filtering_agent llm s2 w2 = (Ok s3, w3) /\
            final_response_agent llm s3 w3 = (Ok st', w'))))).
Proof.
  assert (forall s w0 steps0,
            exec llm db (Goto FinalResponse) s w0 steps0 st' w' ->
            final_response_agent llm s w0 = (Ok st', w')) as Last.
  { intros s w0 steps0 X. inversion X as [|? ? ? s4 w4 ? ? ? A X']; subst.
    cbn [next] in X'. inversion X'; subst. exact A. }
  intros X. inversion X as [|? ? ? s1 w1 ? ? ? A1 X1]; subst.
  exists s1, w1. split; [exact A1|].
  cbn [next] in X1. unfold Py.truthy_str in X1.
  destruct (String.eqb_spec (user_preferences s1) "") as [E|E]; cbn [negb] in X1.
  - left. split; [exact E|]. eapply Last; exact X1.
  - right. split; [exact E|].
    inversion X1 as [|? ? ? s2 w2 ? ? ? A2 X2]; subst.
    exists s2, w2. split; [exact A2|].
    cbn [next] in X2.
    destruct (retrieved_items s2) as [|item items] eqn:R; cbn [Py.truthy_list] in X2.
    + left. split; [reflexivity|]. eapply Last; exact X2.
    + right. split; [discriminate|].
      inversion X2 as [|? ? ? s3 w3 ? ? ? A3 X3]; subst.
      exists s3, w3. split; [exact A3|].
      cbn [next] in X3. eapply Last; exact X3.
Qed.

End Shapes.

(** ** What each agent of the application sends *)

Module Sent.

Import DatabaseFacts CategoryFacts.

Lemma user_interaction_cases st w :
  user_interaction_agent llm_service st w =
  (Ok match chat w (List.length (chat_journal w)) user_interaction_prompt
                  (user_input st) with
      | Some prefs => set_user_preferences prefs st
      | None => st
      end,
   log_chat user_interaction_prompt (user_input st) w).
Proof.
  unfold user_interaction_agent, user_interaction_try, try_except, bind.
  cbn [get_response llm_service]. rewrite App.get_response_cases.
  destruct (chat w _ _ _); reflexivity.
Qed.

Lemma filtering_cases st w st' w' :
  filtering_agent llm_service st w = (Ok st', w') ->
  exists text,
    format_items (retrieved_items st) = Ok text /\
    w' = log_chat filtering_prompt
                  (filtering_message (user_preferences st) text) w.
Proof.
  unfold filtering_agent, filtering_try, try_except, bind, lift.
  destruct (format_items (retrieved_items st)) as [text|e]; [|discriminate].
  cbn [get_response llm_service]. rewrite App.get_response_cases.
  intros H. exists text. split; [reflexivity|].
  destruct (chat w _ _ _); injection H as _ <-; reflexivity.
Qed.

(** The categories Retrieval selects in world [w] for the preferences
    [prefs]. *)
Lemma selected_NoDup w prefs :
  NoDup (select_categories
           (iterate (set_order w) (labels_of (documents w))) prefs).
Proof. unfold select_categories. apply NoDup_filter, iterate_NoDup. Qed.

(** Retrieval ends in one of three ways: the listing failed; the listing
    and every query were answered; a query failed. *)
Lemma retrieval_outcomes st w :
  let selected :=
    select_categories (iterate (set_order w) (labels_of (documents w)))
                      (user_preferences st) in
  ((down_after 0 w \/ ~ Forall labelled (documents w)) /\
   retrieval_agent db st w = (Ok st, log_requests [SelectGenre] w)) \/
  (up_for (1 + List.length selected) w /\ Forall labelled (documents w) /\
   retrieval_agent db st w =
   (Ok (set_retrieved_items
          (flat_map (fun g => matching g (documents w)) selected) st),
    log_requests (SelectGenre :: map SelectIlike selected) w)) \/
  (exists done genre rest,
     selected = done ++ genre :: rest /\
     down_after (1 + List.length done) w /\
     retrieval_agent db st w =
     (Ok st, log_requests (SelectGenre :: map SelectIlike (done ++ [genre])) w)).
Proof.
  intros selected.
  destruct (categories_cases w) as [(U1 & L & C)|C].
  - destruct (up_or_down (List.length selected) (log_request SelectGenre w))
      as [U|(j & Hj & D)].
    + right. left.
      assert (up_for (1 + List.length selected) w) as U'.
      { intros i Hi. destruct i as [|i].
        - apply (U1 0). lia.
        - specialize (U i). cbn in U. rewrite length_app in U. cbn in U.
          replace (List.length (db_journal w) + S i)
            with (List.length (db_journal w) + 1 + i) by lia.
          apply U. lia. }
      split; [exact U'|]. split; [exact L|]. apply (retrieval_up st U' L).
    + right. right.
      destruct (nth_split selected "" Hj) as (done & rest & E & Len).
      exists done, (nth j selected ""), rest. split; [exact E|].
      assert (down_after (1 + List.length done) w) as D';
        [|split; [exact D'|];
          apply (@retrieval_down st w done (nth j selected "") rest L E D')].
      rewrite <- Len in D. destruct D as [U D]. split.
      * intros i Hi. destruct i as [|i].
        -- apply (U1 0). lia.
        -- specialize (U i). cbn in U. rewrite length_app in U. cbn in U.
           replace (List.length (db_journal w) + S i)
             with (List.length (db_journal w) + 1 + i) by lia.
           apply U. cbn in Hi. lia.
      * cbn in D. rewrite length_app in D. cbn in D.
        replace (List.length (db_journal w) + (1 + List.length done))
          with (List.length (db_journal w) + 1 + List.length done) by lia.
        exact D.
  - left. split; [|apply (retrieval_listing_failed db st w C)].
    destruct (db_down w (List.length (db_journal w))) eqn:E.
    + left. now apply down_after_0.
    + right. intros L. apply up_for_1 in E.
      rewrite (categories_up E L) in C. discriminate.
Qed.

End Sent.

(** ** The anatomy of a run of the application *)

Module Anatomy.

Import Sent.

Lemma final_response_fields st w st' w' :
  final_response_agent llm_service st w = (Ok st', w') ->
  user_input st' = user_input st /\
  user_preferences st' = user_preferences st /\
  retrieved_items st' = retrieved_items st /\
  filtered_recommendations st' = filtered_recommendations st /\
  w' = log_chat final_response_prompt
                (final_message (filtered_recommendations st)) w.
Proof.
  rewrite final_response_cases. intros [= <- <-].
  destruct (chat w _ _ _); repeat split.
Qed.

Lemma filtering_fields st w st' w' :
  filtering_agent llm_service st w = (Ok st', w') ->
  user_input st' = user_input st /\
  user_preferences st' = user_preferences st /\
  retrieved_items st' = retrieved_items st.
Proof.
  intros A.
  pose proof (agent_same_but_own llm_service db Filtering st w A) as S.
  split; [apply (same_but_own_input S)|].
  split; [apply (same_but_own_preferences S); discriminate|].
  apply (same_but_own_items S); discriminate.
Qed.

Lemma up_for_log_chat k sys usr w :
  up_for k (log_chat sys usr w) <-> up_for k w.
Proof. reflexivity. Qed.

Lemma ok_pair_inj {A W} (a b : A) (w w' : W) :
  (Ok a, w) = (Ok b, w') -> b = a /\ w' = w.
Proof. intros [= -> ->]. auto. Qed.

Lemma chat_journal_log_chat sys usr w :
  chat_journal (log_chat sys usr w) = chat_journal w ++ [(sys, usr)].
Proof. reflexivity. Qed.

Lemma db_journal_log_chat sys usr w :
  db_journal (log_chat sys usr w) = db_journal w.
Proof. reflexivity. Qed.

(** What a run that returns has done, read off the state it returns. *)
Lemma run_anatomy input w st w' :
  recommend_state input w = (Ok st, w') ->
  let selected :=
    select_categories (iterate (set_order w) (labels_of (documents w)))
                      (user_preferences st) in
  user_input st = input /\
  chat_journal w' = chat_journal w ++ invocations_of input st /\
  ((user_preferences st = "" /\ retrieved_items st = [] /\
    db_journal w' = db_journal w) \/
   (user_preferences st <> "" /\ retrieved_items st = [] /\
    (down_after 0 w \/ ~ Forall labelled (documents w)) /\
    db_journal w' = db_journal w ++ [SelectGenre]) \/
   (user_preferences st <> "" /\
    up_for (1 + List.length selected) w /\ Forall labelled (documents w) /\
    retrieved_items st = flat_map (fun g => matching g (documents w)) selected /\
    db_journal w' = db_journal w ++ SelectGenre :: map SelectIlike selected) \/
   (user_preferences st <> "" /\ retrieved_items st = [] /\
    exists done genre rest,
      selected = done ++ genre :: rest /\
      down_after (1 + List.length done) w /\
      db_journal w' =
      db_journal w ++ SelectGenre :: map SelectIlike (done ++ [genre]))).
Proof.
  intros H selected. unfold recommend_state in H.
  apply get_state_exec in H. destruct H as (steps & X).
  destruct (exec_shapes X) as (s1 & w1 & A1 & Shape).
  rewrite user_interaction_cases in A1. cbn [user_input initial_state] in A1.
  injection A1 as E1 Ew1.
  assert (user_input s1 = input /\ retrieved_items s1 = [] /\
          filtered_recommendations s1 = "") as (I1 & R1 & F1).
  { rewrite <- E1. destruct (chat w _ _ _); repeat split. }
  assert (chat_journal w1 = chat_journal w ++ [(user_interaction_prompt, input)]
          /\ db_journal w1 = db_journal w /\ documents w1 = documents w
          /\ set_order w1 = set_order w) as (C1 & D1 & T1 & O1).
  { rewrite <- Ew1. repeat split. }
  destruct Shape as [(P1 & A4)|(P1 & s2 & w2 & A2 & Shape)].
  - (* no preferences *)
    apply final_response_fields in A4.
    destruct A4 as (I4 & P4 & R4 & F4 & ->).
    split; [congruence|]. split.
    + cbn [chat_journal log_chat]. rewrite C1. unfold invocations_of.
      rewrite R4, R1, F4. cbn [app]. rewrite <- app_assoc. reflexivity.
    + left. rewrite P4, R4. repeat split; assumption.
  - destruct (retrieval_outcomes s1 w1)
      as [(Why & Out)|[(U & L & Out)|(done & genre & rest & S & Why & Out)]];
      rewrite Out in A2; apply ok_pair_inj in A2; destruct A2 as [-> ->].
    + (* the listing failed *)
      destruct Shape as [(_ & A4)|(N & _)]; [|contradiction].
      apply final_response_fields in A4.
      destruct A4 as (I4 & P4 & R4 & F4 & ->).
      split; [congruence|]. split.
      * cbn [chat_journal log_chat log_requests log_request fold_left].
        rewrite C1. unfold invocations_of.
        rewrite R4, R1, F4. cbn [app]. rewrite <- app_assoc. reflexivity.
      * right. left. rewrite P4, R4.
        split; [assumption|]. split; [assumption|].
        split; [rewrite <- Ew1 in Why; exact Why|].
        cbn [db_journal log_chat log_requests log_request fold_left].
        now rewrite D1.
    + (* everything was answered *)
      rewrite T1, O1 in *.
      rewrite <- Ew1 in U. apply up_for_log_chat in U.
      assert (chat_journal
                (log_requests
                   (SelectGenre
                    :: map SelectIlike
                         (select_categories
                            (iterate (set_order w) (labels_of (documents w)))
                            (user_preferences s1))) w1) = chat_journal w1) as C2
          by apply log_requests_fields.
      assert (db_journal
                (log_requests
                   (SelectGenre
                    :: map SelectIlike
                         (select_categories
                            (iterate (set_order w) (labels_of (documents w)))
                            (user_preferences s1))) w1)
              = db_journal w1 ++ SelectGenre
                  :: map SelectIlike
                       (select_categories
                          (iterate (set_order w) (labels_of (documents w)))
                          (user_preferences s1))) as D2
          by apply log_requests_fields.
      destruct Shape as [(R2 & A4)|(R2 & s3 & w3 & A3 & A4)].
      * apply final_response_fields in A4.
        destruct A4 as (I4 & P4 & R4 & F4 & ->).
        cbn [user_input user_preferences retrieved_items
             filtered_recommendations set_retrieved_items] in I4, P4, R4, F4, R2.
        split; [congruence|]. split.
        -- rewrite chat_journal_log_chat, C2, C1. unfold invocations_of.
           cbn [filtered_recommendations set_retrieved_items].
           rewrite R4, R2, F4, F1. cbn [app]. rewrite <- app_assoc. reflexivity.
        -- right. right. left. unfold selected. rewrite P4, R4.
           split; [assumption|]. split; [exact U|]. split; [exact L|].
           split; [reflexivity|].
           rewrite !db_journal_log_chat. now rewrite D2, D1.
      * pose proof (filtering_fields _ _ A3) as (I3 & P3 & R3).
        destruct (filtering_cases _ _ A3) as (text & Ft & ->).
        apply final_response_fields in A4.
        destruct A4 as (I4 & P4 & R4 & F4 & ->).
        cbn [user_input user_preferences retrieved_items
             filtered_recommendations set_retrieved_items]
          in I3, P3, R3, I4, P4, R4, F4, R2, Ft.
        split; [congruence|]. split.
        -- rewrite !chat_journal_log_chat, C2, C1. unfold invocations_of.
           cbn [user_preferences set_retrieved_items].
           rewrite R4, R3, P4, P3, F4.
           destruct (flat_map _ _) eqn:Fl; [contradiction|].
           rewrite Ft. rewrite <- !app_assoc. reflexivity.
        -- right. right. left. unfold selected. rewrite P4, P3, R4, R3.
           split; [assumption|]. split; [exact U|]. split; [exact L|].
           split; [reflexivity|].
           rewrite !db_journal_log_chat. now rewrite D2, D1.
    + (* a query failed *)
      rewrite T1, O1 in *.
      assert (chat_journal
                (log_requests
                   (SelectGenre :: map SelectIlike (done ++ [genre])) w1)
              = chat_journal w1) as C2 by apply log_requests_fields.
      assert (db_journal
                (log_requests
                   (SelectGenre :: map SelectIlike (done ++ [genre])) w1)
              = db_journal w1 ++ SelectGenre :: map SelectIlike (done ++ [genre]))
        as D2 by apply log_requests_fields.
      destruct Shape as [(_ & A4)|(N & _)]; [|contradiction].
      apply final_response_fields in A4.
      destruct A4 as (I4 & P4 & R4 & F4 & ->).
      split; [congruence|]. split.
      * rewrite chat_journal_log_chat, C2, C1. unfold invocations_of.
        rewrite R4, R1, F4. cbn [app]. rewrite <- app_assoc. reflexivity.
      * right. right. right. unfold selected. rewrite P4, R4.
        split; [assumption|]. split; [assumption|].
        exists done, genre, rest. split; [exact S|].
        split; [rewrite <- Ew1 in Why; exact Why|].
        rewrite !db_journal_log_chat. now rewrite D2, D1.
Qed.

End Anatomy.

(** ** What is retrieved *)

Module Retrieved.

Import Postgres PostgresFacts CategoryFacts.

(** Every text matches itself as a pattern, wildcards or not. *)
Lemma like_refl x : like x x = true.
Proof.
  induction x as [|c x IH]; [reflexivity|].
  cbn [like]. destruct (any_run c).
  - apply orb_true_iff. right.
    destruct x as [|d x]; [reflexivity|].
    apply orb_true_iff. left. exact IH.
  - rewrite Ascii.eqb_refl, orb_true_r. exact IH.
Qed.

(** A lower-cased label matches the label it comes from. *)
Lemma ilike_own_label g : ilike (Py.lower g) g = true.
Proof. unfold ilike. rewrite lower_idem. apply like_refl. Qed.

Lemma filter_none {A} (l : list A) : filter (fun _ => false) l = [].
Proof. induction l; auto. Qed.

Lemma filter_disjoint_perm {A} (p q : A -> bool) (l : list A) :
  (forall x, In x l -> p x = true -> q x = true -> False) ->
  Permutation (filter p l ++ filter q l) (filter (fun x => p x || q x) l).
Proof.
  induction l as [|x l IH]; intros D; [constructor|].
  assert (Permutation (filter p l ++ filter q l)
                      (filter (fun x => p x || q x) l)) as IH'
      by (apply IH; intros y Hy; apply D; right; exact Hy).
  cbn [filter]. destruct (p x) eqn:P, (q x) eqn:Q; cbn [orb app].
  - exfalso. apply (D x); auto. left; reflexivity.
  - now apply perm_skip.
  - eapply Permutation_trans; [apply Permutation_sym, Permutation_middle|].
    now apply perm_skip.
  - exact IH'.
Qed.

(** Gathering, key by key, the elements each key picks gives every picked
    element once, when no element is picked by two keys. *)
Lemma flat_map_filter_perm {A B} (f : B -> A -> bool) (l : list A) (keys : list B) :
  NoDup keys ->
  (forall k k' x, In k keys -> In k' keys -> In x l ->
                  f k x = true -> f k' x = true -> k = k') ->
  Permutation (flat_map (fun k => filter (f k) l) keys)
              (filter (fun x => existsb (fun k => f k x) keys) l).
Proof.
  induction keys as [|k keys IH]; intros N D.
  - cbn. now rewrite filter_none.
  - inversion N as [|? ? Hk N']; subst. cbn [flat_map existsb].
    eapply Permutation_trans;
      [|apply filter_disjoint_perm].
    + apply Permutation_app_head. apply IH; [exact N'|].
      intros a b x Ha Hb. apply D; right; assumption.
    + intros x Hx P Q. apply existsb_exists in Q.
      destruct Q as (k' & Hk' & Q).
      assert (k = k') as -> by (apply (D k k' x); auto; [left|right]; auto).
      contradiction.
Qed.

End Retrieved.

(** X1. The invocations of the model during a run that returns are read off
    the state it returns: first the preference prompt with the raw input;
    then, only when items were retrieved, the filtering prompt with the
    preferences and the formatted items; last the formatting prompt with the
    filtered recommendations. That is two or three invocations. *)
Theorem X1_model_invocations (input : string) (w : World) (st : State) (w' : World) :
  recommend_state input w = (Ok st, w') ->
  chat_journal w' = chat_journal w ++ invocations_of input st /\
  2 <= List.length (invocations_of input st) <= 3.
Proof.
  intros H. split; [apply (Anatomy.run_anatomy _ _ H)|].
  unfold invocations_of.
  destruct (retrieved_items st); [cbn; lia|].
  destruct (format_items _); cbn; lia.
Qed.

Lemma X1_model_invocations_witness :
  exists st w',
    recommend_state "I like sci-fi"
      (Sample.world Sample.table Sample.up (Sample.parrot "sci-fi, please"))
    = (Ok st, w') /\
    List.length (chat_journal w') = 2.
Proof.
  destruct (recommend_state "I like sci-fi"
              (Sample.world Sample.table Sample.up (Sample.parrot "sci-fi, please")))
    as [[st|e] w'] eqn:E.
  - exists st, w'. split; [reflexivity|].
    destruct (X1_model_invocations _ _ E) as [J _].
    rewrite J. vm_compute in E. injection E as <- _. reflexivity.
  - exfalso. vm_compute in E. discriminate.
Defined.







Lemma wanted_selected w prefs row :
  In row (documents w) ->
  plain_labels (documents w) ->
  existsb (fun c => match genre_of row with
                    | Some g => Postgres.ilike c g
                    | None => false
                    end)
          (select_categories (iterate (set_order w) (labels_of (documents w))) prefs)
  = wanted prefs row.
Proof.
  intros Hr Pl. unfold wanted.
  destruct (genre_of row) as [g|] eqn:G.
  - apply Bool.eq_iff_eq_true. rewrite existsb_exists, PyFacts.contains_In.
    rewrite PyFacts.split_words. split.
    + intros (c & Hc & M). apply selected_of_table in Hc.
      destruct Hc as [(row0 & g0 & Hr0 & G0 & ->) Wd].
      apply PostgresFacts.ilike_plain in M.
      * rewrite PostgresFacts.lower_idem in M. now rewrite <- M.
      * rewrite PostgresFacts.plain_lower. apply (Pl row0 g0 Hr0 G0).
    + intros Wd. exists (Py.lower g). split.
      * apply selected_of_table. split; [|exact Wd]. exists row, g. auto.
      * apply Retrieved.ilike_own_label.
  - induction (select_categories _ _); auto.
Qed.



(** ** Outages *)

Lemma run_of_agents2 input w s1 w1 s4 w4 :
  user_interaction_agent llm_service (initial_state input) w = (Ok s1, w1) ->
  user_preferences s1 = "" ->
  final_response_agent llm_service s1 w1 = (Ok s4, w4) ->
  recommend_state input w = (Ok s4, w4) /\
  recommend input w = (Ok (final_response s4), w4).
Proof.
  intros A1 P A4.
  assert (invoke_traced llm_service db (initial_state input) w =
          (Ok ([(UserInteraction, s1); (FinalResponse, s4)], s4), w4)) as T.
  { unfold invoke_traced, recursion_limit, entry_point.
    rewrite (drive_agent_ok llm_service db 24 UserInteraction _ _ A1).
    assert (next UserInteraction s1 = Goto FinalResponse) as ->
        by (cbn; now rewrite P).
    rewrite (drive_agent_ok llm_service db 23 FinalResponse _ _ A4).
    reflexivity. }
  unfold recommend_state, recommend.
  rewrite run_unfold, get_state_unfold. unfold invoke, bind. rewrite T.
  split; reflexivity.
Qed.

Lemma run_of_agents3 input w s1 w1 s2 w2 s4 w4 :
  user_interaction_agent llm_service (initial_state input) w = (Ok s1, w1) ->
  user_preferences s1 <> "" ->
  retrieval_agent db s1 w1 = (Ok s2, w2) ->
  retrieved_items s2 = [] ->
  final_response_agent llm_service s2 w2 = (Ok s4, w4) ->
  recommend_state input w = (Ok s4, w4) /\
  recommend input w = (Ok (final_response s4), w4).
Proof.
  intros A1 P A2 R A4.
  assert (invoke_traced llm_service db (initial_state input) w =
          (Ok ([(UserInteraction, s1); (Retrieval, s2); (FinalResponse, s4)], s4),
           w4)) as T.
  { unfold invoke_traced, recursion_limit, entry_point.
    rewrite (drive_agent_ok llm_service db 24 UserInteraction _ _ A1).
    assert (next UserInteraction s1 = Goto Retrieval) as ->.
    { cbn. unfold Py.truthy_str.
      destruct (String.eqb_spec (user_preferences s1) "");
        [contradiction|reflexivity]. }
    rewrite (drive_agent_ok llm_service db 23 Retrieval _ _ A2).
    assert (next Retrieval s2 = Goto FinalResponse) as ->
        by (cbn; now rewrite R).
    rewrite (drive_agent_ok llm_service db 22 FinalResponse _ _ A4).
    reflexivity. }
  unfold recommend_state, recommend.
  rewrite run_unfold, get_state_unfold. unfold invoke, bind. rewrite T.
  split; reflexivity.
Qed.

(** X6. When the model cannot be reached at all, every input gives the
    empty response, not an error: the state returned is the initial one,
    the model was tried twice, and nothing was asked of Supabase. *)
Theorem X6_model_unreachable (input : string) (w : World) :
  (forall n sys usr, chat w n sys usr = None) ->
  let w' := log_chat final_response_prompt (final_message "")
                     (log_chat user_interaction_prompt input w) in
  recommend input w = (Ok "", w') /\
  recommend_state input w = (Ok (initial_state input), w') /\
  db_journal w' = db_journal w.
Proof.
  intros Down w'.
  pose proof (Sent.user_interaction_cases (initial_state input) w) as A1.
  rewrite Down in A1. cbn [user_input initial_state] in A1.
  pose proof (final_response_cases (initial_state input)
                (log_chat user_interaction_prompt input w)) as A4.
  cbn [chat log_chat] in A4. rewrite Down in A4.
  destruct (run_of_agents2 input w A1 eq_refl A4) as [G R].
  split; [exact R|]. split; [exact G|reflexivity].
Qed.

Lemma X6_model_unreachable_witness :
  fst (recommend "I like sci-fi"
         (Sample.world Sample.table Sample.up Sample.silent)) = Ok "".
Proof.
  destruct (@X6_model_unreachable "I like sci-fi"
              (Sample.world Sample.table Sample.up Sample.silent))
    as (R & _ & _).
  - reflexivity.
  - rewrite R. reflexivity.
Defined.

(** X7. When Supabase fails every request, every input still gets a
    response: at most the listing was requested, nothing is retrieved,
    Filtering does not run, and the model is asked twice, the second time
    to format an empty list of recommendations. *)
Theorem X7_supabase_unreachable (input : string) (w : World) :
  (forall n, db_down w n = true) ->
  exists st w',
    recommend_state input w = (Ok st, w') /\
    recommend input w = (Ok (final_response st), w') /\
    retrieved_items st = [] /\
    filtered_recommendations st = "" /\
    chat_journal w' =
    chat_journal w ++ [(user_interaction_prompt, input);
                       (final_response_prompt, final_message "")] /\
    db_journal w' =
    db_journal w ++ (if Py.truthy_str (user_preferences st)
                     then [SelectGenre] else []).
Proof.
  intros Down.
  pose proof (Sent.user_interaction_cases (initial_state input) w) as A1.
  cbn [user_input initial_state] in A1.
  set (s1 := match chat w (List.length (chat_journal w))
                        user_interaction_prompt input with
             | Some prefs => set_user_preferences prefs (initial_state input)
             | None => initial_state input
             end) in *.
  set (w1 := log_chat user_interaction_prompt input w) in *.
  assert (retrieved_items s1 = [] /\ filtered_recommendations s1 = "")
    as [R1 F1] by (unfold s1; destruct (chat w _ _ _); split; reflexivity).
  destruct (String.eqb_spec (user_preferences s1) "") as [P|P].
  - pose proof (final_response_cases s1 w1) as A4. rewrite F1 in A4.
    destruct (run_of_agents2 input w A1 P A4) as [G R].
    eexists _, _. split; [exact G|]. split; [exact R|].
    split; [destruct (chat w1 _ _ _); exact R1|].
    split; [destruct (chat w1 _ _ _); exact F1|].
    split.
    + cbn [chat_journal log_chat]. unfold w1. cbn [chat_journal log_chat].
      rewrite <- app_assoc. reflexivity.
    + replace (Py.truthy_str _) with false.
      * cbn [db_journal log_chat]. unfold w1. cbn. now rewrite app_nil_r.
      * destruct (chat w1 _ _ _); cbn [user_preferences set_final_response];
          rewrite P; reflexivity.
  - assert (retrieval_agent db s1 w1 = (Ok s1, log_request SelectGenre w1)) as A2.
    { apply (retrieval_listing_failed db s1 w1
               (e := HTTPException 500 "Error fetching categories.")).
      apply CategoryFacts.categories_down. apply CategoryFacts.down_after_0.
      apply Down. }
    pose proof (final_response_cases s1 (log_request SelectGenre w1)) as A4.
    rewrite F1 in A4.
    destruct (run_of_agents3 input w A1 P A2 R1 A4) as [G R].
    eexists _, _. split; [exact G|]. split; [exact R|].
    split; [destruct (chat (log_request SelectGenre w1) _ _ _); exact R1|].
    split; [destruct (chat (log_request SelectGenre w1) _ _ _); exact F1|].
    split.
    + cbn [chat_journal log_chat log_request]. unfold w1.
      cbn [chat_journal log_chat]. rewrite <- app_assoc. reflexivity.
    + replace (Py.truthy_str _) with true.
      * cbn [db_journal log_chat log_request]. unfold w1. reflexivity.
      * destruct (chat (log_request SelectGenre w1) _ _ _); cbn [user_preferences set_final_response];
          unfold Py.truthy_str;
          destruct (String.eqb_spec (user_preferences s1) "");
          try contradiction; reflexivity.
Qed.

Lemma X7_supabase_unreachable_witness :
  exists st w',
    recommend_state "I like sci-fi"
      (Sample.world Sample.table (fun _ => true) (Sample.parrot "sci-fi please"))
    = (Ok st, w') /\
    retrieved_items st = [] /\ db_journal w' = [SelectGenre].
Proof.
  destruct (@X7_supabase_unreachable "I like sci-fi"
              (Sample.world Sample.table (fun _ => true)
                            (Sample.parrot "sci-fi please")))
    as (st & w' & G & _ & R & _ & _ & D).
  - reflexivity.
  - exists st, w'. split; [exact G|]. split; [exact R|].
    rewrite D. vm_compute in G. injection G as <- _. reflexivity.
Defined.

(* ================================================================== *)
(** * Properties of registration, login and drawing *)


(** X9. The [/visualize_workflow] endpoint answers that the picture was
    generated whatever happened: when the drawing fails nothing is written
    or displayed, when the writing fails nothing is displayed, and the
    answer is the same. *)
Theorem X9_visualize_reports_success_regardless
        (V Image : Type)
        (draw_mermaid_png : M V Image)
        (write_file : string -> Image -> M V unit)
        (display : string -> M V unit) (v : V) :
  let endpoint := visualize_workflow draw_mermaid_png write_file display in
  fst (endpoint v) = Ok "Workflow visualization generated!" /\
  snd (endpoint v) =
  match draw_mermaid_png v with
  | (Raise _, v1) => v1
  | (Ok img_data, v1) =>
      match write_file "graph_image.png" img_data v1 with
      | (Raise _, v2) => v2
      | (Ok _, v2) => snd (display "graph_image.png" v2)
      end
  end.
Proof.
  cbn zeta. unfold visualize_workflow, visualize_graph, try_except, bind, ret.
  destruct (draw_mermaid_png v) as [[img|e] v1]; [|split; reflexivity].
  destruct (write_file "graph_image.png" img v1) as [[[]|e] v2];
    [|split; reflexivity].
  destruct (display "graph_image.png" v2) as [[[]|e] v3]; split; reflexivity.
Qed.


(* ================================================================== *)
(** * Properties of the front end *)

Module UIFacts.

Import UI.

Section Pages.

Variable str_value : JSON -> string.

Local Abbreviation run := (streamlit_ui str_value).

Lemma issued_at_later f f' k t :
  backend_url f' = backend_url f -> server f' = server f ->
  (exists more, sent f' = sent f ++ more) ->
  issued_at f k t -> issued_at f' k t.
Proof.
  intros B S [more E] (req & fields & N & U & C & L).
  exists req, fields. rewrite B, S, E.
  split; [|auto]. rewrite nth_error_app1; [exact N|].
  apply nth_error_Some. congruence.
Qed.

Lemma nth_error_snoc {X} (l : list X) (x : X) :
  nth_error (l ++ [x]) (List.length l) = Some x.
Proof. rewrite nth_error_app2, Nat.sub_diag; [reflexivity|lia]. Qed.

(** What one rerun does to the session: it sends at most one request,
    without headers or with the token of the session, and it keeps the
    token unless a login was answered with one. *)
Lemma rerun_summary i f :
  let f' := snd (run i f) in
  backend_url f' = backend_url f /\ server f' = server f /\
  (sent f' = sent f \/
   exists req, sent f' = sent f ++ [req] /\
               (headers req = [] \/
                exists t, token f = Some t /\ headers req = bearer str_value t)) /\
  (token f' = token f \/
   (choice i = Login /\ clicked i = true /\
    exists t, token f' = Some t /\ issued_at f' (List.length (sent f)) t)).
Proof.
  cbn zeta. unfold streamlit_ui.
  destruct (choice i) eqn:Ch; cbn [snd].
  - repeat split; auto.
  - destruct (clicked i); [|repeat split; auto].
    unfold register_user, post.
    destruct (subscript _ "message"); cbn;
      (split; [reflexivity|]; split; [reflexivity|]; split; [right; eauto|auto]).
  - destruct (clicked i) eqn:Cl; [|repeat split; auto].
    unfold login_user, post.
    set (req := {| url := _; json_body := _; headers := _ |}).
    cbn [backend_url show clear sent].
    destruct (checked_json (server _ _ req)) as [v|] eqn:C.
    + destruct v as [| | | |items|fields]; cbn [contains_key];
        try (cbn; split; [reflexivity|]; split; [reflexivity|];
             split; [right; eauto|auto]; fail).
      * destruct (occurs_in _ _); cbn;
          (split; [reflexivity|]; split; [reflexivity|];
           split; [right; eauto|auto]).
      * destruct (existsb _ items); cbn;
          (split; [reflexivity|]; split; [reflexivity|];
           split; [right; eauto|auto]).
      * cbn [subscript get_or]. destruct (lookup_field "access_token" fields) as [t|] eqn:L.
        -- cbn. split; [reflexivity|]. split; [reflexivity|].
           split; [right; eauto|]. right.
           split; [reflexivity|]. split; [reflexivity|].
           exists t. split; [reflexivity|].
           exists req, fields. cbn.
           split; [apply nth_error_snoc|]. split; [reflexivity|].
           split; [exact C|exact L].
        -- cbn. split; [reflexivity|]. split; [reflexivity|].
           split; [right; eauto|auto].
    + cbn. split; [reflexivity|]. split; [reflexivity|].
      split; [right; eauto|auto].
  - destruct (clicked i); [|repeat split; auto].
    cbn zeta. unfold session_token. cbn [token show clear].
    destruct (token f) as [t|] eqn:T; cbn [truthy].
    + destruct (truthy t); [|repeat split; auto].
      unfold get_recommendations, post. cbn.
      split; [reflexivity|]. split; [reflexivity|].
      split; [right; eexists; split; [reflexivity|]; right; eauto|auto].
    + cbn. repeat split; auto.
  - destruct (clicked i); [|repeat split; auto].
    cbn zeta. unfold session_token. cbn [token show clear].
    destruct (token f) as [t|] eqn:T; cbn [truthy].
    + destruct (truthy t); [|repeat split; auto].
      unfold get_agent_states, post. cbn.
      split; [reflexivity|]. split; [reflexivity|].
      split; [right; eexists; split; [reflexivity|]; right; eauto|auto].
    + cbn. repeat split; auto.
Qed.

End Pages.

End UIFacts.

(** X10. The Register page cannot show a failed registration: when the
    request gets no reply, an error status or a body that is not JSON,
    [register_user] returns its error object, which has no [message], and
    the page raises [KeyError] after the request went out, with the session
    as it was and nothing but the headings on the screen. *)
Theorem X10_register_page_raises_on_failure
        (str_value : UI.JSON -> string) (i : UI.Interaction) (f : UI.Front) :
  let req := {| UI.url := UI.backend_url f ++ "/register";
                UI.json_body := UI.credentials (UI.email i) (UI.password i);
                UI.headers := [] |} in
  UI.choice i = UI.Register ->
  UI.clicked i = true ->
  UI.checked_json (UI.server f (List.length (UI.sent f)) req) = None ->
  exists f',
    UI.streamlit_ui str_value i f = (Some (UI.KeyError "message"), f') /\
    UI.sent f' = UI.sent f ++ [req] /\
    UI.token f' = UI.token f /\
    UI.screen f' = [UI.Title "AI-Powered Content Recommender";
                    UI.Subheader "Create an Account"].
Proof.
  intros req Ch Cl C. unfold UI.streamlit_ui. rewrite Ch, Cl.
  unfold UI.register_user, UI.post.
  cbn [UI.backend_url UI.show UI.clear UI.sent UI.server].
  fold req. rewrite C. cbn.
  eexists. split; [reflexivity|]. repeat split.
Qed.

Lemma X10_register_page_raises_on_failure_witness :
  fst (UI.streamlit_ui (fun _ => "")
         (UI.visit UI.Register "ann@example.org" "secret" "")
         (UI.fresh (fun _ _ => UI.Replied 400 (Some (UI.JObj [("detail", UI.JStr "User already registered")])))))
  = Some (UI.KeyError "message").
Proof.
  destruct (@X10_register_page_raises_on_failure (fun _ => "")
              (UI.visit UI.Register "ann@example.org" "secret" "")
              (UI.fresh (fun _ _ => UI.Replied 400 (Some (UI.JObj [("detail", UI.JStr "User already registered")])))))
    as (f' & E & _).
  - reflexivity.
  - reflexivity.
  - reflexivity.
  - rewrite E. reflexivity.
Defined.

(** X11. The Login page, when the button is pressed. A request that fails
    leaves the token as it was and shows the fixed failure message. A reply
    that is an object with an [access_token] stores that value as the token
    and shows the success message. A reply that is an object without one
    leaves the token as it was and shows its [error] entry, or "Login
    failed." when it has none. In none of these cases does the page
    raise. *)
Theorem X11_login_page
        (str_value : UI.JSON -> string) (i : UI.Interaction) (f : UI.Front) :
  let req := {| UI.url := UI.backend_url f ++ "/login";
                UI.json_body := UI.credentials (UI.email i) (UI.password i);
                UI.headers := [] |} in
  let reply := UI.checked_json (UI.server f (List.length (UI.sent f)) req) in
  let headings := [UI.Title "AI-Powered Content Recommender";
                   UI.Subheader "Login to Your Account"] in
  let after := UI.streamlit_ui str_value i f in
  UI.choice i = UI.Login ->
  UI.clicked i = true ->
  UI.sent (snd after) = UI.sent f ++ [req] /\
  (reply = None ->
   fst after = None /\ UI.token (snd after) = UI.token f /\
   UI.screen (snd after) =
   headings ++ [UI.Error (UI.JStr "Login failed. Please check your credentials.")]) /\
  (forall fields t,
     reply = Some (UI.JObj fields) ->
     UI.lookup_field "access_token" fields = Some t ->
     fst after = None /\ UI.token (snd after) = Some t /\
     UI.screen (snd after) = headings ++ [UI.Success "Login Successful!"]) /\
  (forall fields,
     reply = Some (UI.JObj fields) ->
     UI.lookup_field "access_token" fields = None ->
     fst after = None /\ UI.token (snd after) = UI.token f /\
     UI.screen (snd after) =
     headings ++ [UI.Error match UI.lookup_field "error" fields with
                           | Some message => message
                           | None => UI.JStr "Login failed."
                           end]).
Proof.
  intros req reply headings after Ch Cl.
  unfold after, UI.streamlit_ui. rewrite Ch, Cl.
  unfold UI.login_user, UI.post.
  cbn [UI.backend_url UI.show UI.clear UI.sent UI.server].
  fold req. fold reply.
  split; [destruct reply as [v|]; cbn;
          [destruct (UI.contains_key _ v) as [[|]|];
           [destruct (UI.subscript v _)|destruct (UI.get_or v _ _)|]|];
          reflexivity|].
  split; [intros ->; cbn; repeat split|].
  split.
  - intros fields t -> L. cbn. rewrite L. cbn. repeat split.
  - intros fields -> L. cbn. rewrite L. cbn. repeat split.
Qed.

Lemma X11_login_page_witness :
  let after :=
    UI.streamlit_ui (fun _ => "")
      (UI.visit UI.Login "ann@example.org" "secret" "")
      (UI.fresh (UI.always 200 (UI.JObj [("access_token", UI.JStr "abc");
                                         ("user", UI.JNull)]))) in
  UI.token (snd after) = Some (UI.JStr "abc").
Proof.
  cbn zeta.
  destruct (@X11_login_page (fun _ => "")
              (UI.visit UI.Login "ann@example.org" "secret" "")
              (UI.fresh (UI.always 200 (UI.JObj [("access_token", UI.JStr "abc");
                                                 ("user", UI.JNull)])))
              eq_refl eq_refl) as (_ & _ & H & _).
  apply (H [("access_token", UI.JStr "abc"); ("user", UI.JNull)] (UI.JStr "abc"));
    reflexivity.
Defined.

(** X12. Only a login that is answered with a token changes the token of
    the session: after any other rerun, also a failed login and one that
    raised, the token is the one from before. *)
Theorem X12_token_changes_only_by_login
        (str_value : UI.JSON -> string) (i : UI.Interaction) (f : UI.Front) :
  let f' := snd (UI.streamlit_ui str_value i f) in
  UI.token f' <> UI.token f ->
  UI.choice i = UI.Login /\ UI.clicked i = true /\
  exists t, UI.token f' = Some t /\ UI.issued_at f' (List.length (UI.sent f)) t.
Proof.
  intros f' N.
  destruct (UIFacts.rerun_summary str_value i f) as (_ & _ & _ & [E|H]).
  - contradiction.
  - exact H.
Qed.

Lemma X12_token_changes_only_by_login_witness :
  UI.choice (UI.visit UI.Login "ann@example.org" "secret" "") = UI.Login.
Proof.
  apply (@X12_token_changes_only_by_login (fun _ => "")
           (UI.visit UI.Login "ann@example.org" "secret" "")
           (UI.fresh (UI.always 200 (UI.JObj [("access_token", UI.JStr "abc")])))).
  cbn. discriminate.
Defined.

(** X13. On the two pages that need a login, no request goes out while the
    session holds no token, or one that counts as false: the page shows
    "Please log in first." and does not raise. With a token, pressing the
    button sends exactly one request, to [/recommend] or [/get_state], with
    the input as [user_input] and the token in the [Authorization] header,
    and the page writes what came back, or the error object when the
    request failed. *)
Theorem X13_protected_pages
        (str_value : UI.JSON -> string) (i : UI.Interaction) (f : UI.Front) :
  let after := UI.streamlit_ui str_value i f in
  let agent_states :=
    match UI.choice i with UI.GetAgentStates => true | _ => false end in
  let headings :=
    [UI.Title "AI-Powered Content Recommender";
     UI.Subheader (if agent_states then "Get AI Agent States"
                   else "Get Personalized Recommendations")] in
  let req := {| UI.url := UI.backend_url f
                          ++ (if agent_states then "/get_state" else "/recommend");
                UI.json_body := UI.JObj [("user_input", UI.JStr (UI.text i))];
                UI.headers := UI.bearer str_value (UI.session_token f) |} in
  UI.choice i = UI.GetRecommendations \/ UI.choice i = UI.GetAgentStates ->
  fst after = None /\
  UI.token (snd after) = UI.token f /\
  (UI.truthy (UI.session_token f) = false ->
   UI.sent (snd after) = UI.sent f /\
   (UI.clicked i = true ->
    UI.screen (snd after) =
    headings ++ [UI.Error (UI.JStr "Please log in first.")])) /\
  (UI.truthy (UI.session_token f) = true -> UI.clicked i = true ->
   UI.sent (snd after) = UI.sent f ++ [req] /\
   UI.screen (snd after) =
   headings ++
   [UI.Write match UI.checked_json (UI.server f (List.length (UI.sent f)) req) with
             | Some v => v
             | None => UI.error_object
                         (if agent_states then "Failed to fetch agent states."
                          else "Failed to fetch recommendations.")
             end]).
Proof.
  intros after agent_states headings req Ch.
  unfold after, req, headings, agent_states, UI.streamlit_ui.
  destruct Ch as [Ch|Ch]; rewrite Ch; cbn zeta;
    change (UI.session_token
              (UI.show _ (UI.show _ (UI.clear f)))) with (UI.session_token f);
    destruct (UI.clicked i);
    destruct (UI.truthy (UI.session_token f));
    unfold UI.get_recommendations, UI.get_agent_states, UI.post; cbn;
    (split; [reflexivity|]; split; [reflexivity|]; split;
     [intros E;
      first [discriminate
            |split; [reflexivity|];
             intros E'; first [discriminate|reflexivity]]
     |intros E E';
      first [discriminate|split; reflexivity]]).
Qed.

Lemma X13_protected_pages_witness :
  let after :=
    UI.streamlit_ui (fun _ => "")
      (UI.visit UI.GetRecommendations "" "" "sci-fi films")
      (UI.fresh (UI.always 200 (UI.JStr "Watch Alien."))) in
  fst after = None /\ UI.sent (snd after) = [].
Proof.
  cbn zeta.
  destruct (@X13_protected_pages (fun _ => "")
              (UI.visit UI.GetRecommendations "" "" "sci-fi films")
              (UI.fresh (UI.always 200 (UI.JStr "Watch Alien."))))
    as (E & _ & H & _).
  - left. reflexivity.
  - split; [exact E|]. apply H. reflexivity.
Defined.

(** ** Series of reruns *)

Module Sessions.

Import UI.

Section Pages.

Variable str_value : JSON -> string.

Lemma grown_from_start f0 : token f0 = None -> grown_from str_value f0 f0.
Proof.
  intros T. split; [reflexivity|]. split; [reflexivity|].
  split; [exists []; now rewrite app_nil_r|].
  split; [intros t E; congruence|].
  intros k req N L H. exfalso.
  assert (k < List.length (sent f0)) by (apply nth_error_Some; congruence).
  lia.
Qed.

Lemma grown_from_rerun f0 f i :
  grown_from str_value f0 f ->
  grown_from str_value f0 (snd (streamlit_ui str_value i f)).
Proof.
  intros (B & S & [more M] & Tk & Rq).
  destruct (UIFacts.rerun_summary str_value i f) as (B' & S' & Sent & Tok).
  set (f' := snd (streamlit_ui str_value i f)) in *.
  assert (exists new, sent f' = sent f ++ new /\ List.length new <= 1) as (new & E & Ln).
  { destruct Sent as [E|(req & E & _)];
      [exists []; rewrite app_nil_r|exists [req]]; split; auto. }
  assert (forall j t, issued_at f j t -> issued_at f' j t) as Mono.
  { intros j t. apply UIFacts.issued_at_later; eauto. }
  split; [congruence|]. split; [congruence|].
  split; [exists (more ++ new); rewrite E, M; now rewrite app_assoc|].
  split.
  - intros t Et. destruct Tok as [Same|(_ & _ & t' & Et' & I)].
    + rewrite Same in Et. destruct (Tk t Et) as (j & Hj & I).
      exists j. split; [|apply Mono; exact I].
      rewrite E, length_app. lia.
    + rewrite Et' in Et. injection Et as <-.
      exists (List.length (sent f)). split; [|exact I].
      destruct I as (req & fields & N & _).
      assert (List.length (sent f) < List.length (sent f'))
        by (apply nth_error_Some; congruence).
      rewrite M, length_app in *. lia.
  - intros k req N L H.
    destruct (Nat.lt_ge_cases k (List.length (sent f))) as [Old|New].
    + rewrite E, nth_error_app1 in N by exact Old.
      destruct (Rq k req N L H) as (j & t & Hj & I & Hd).
      exists j, t. split; [exact Hj|]. split; [apply Mono; exact I|exact Hd].
    + destruct Sent as [Same|(req' & E' & Hd)].
      * rewrite Same in N.
        assert (k < List.length (sent f)) by (apply nth_error_Some; congruence).
        lia.
      * rewrite E' in N.
        assert (k = List.length (sent f)) as ->.
        { assert (k < List.length (sent f ++ [req']))
            by (apply nth_error_Some; congruence).
          rewrite length_app in *. cbn in *. lia. }
        rewrite UIFacts.nth_error_snoc in N. injection N as <-.
        destruct Hd as [Hd|(t & Et & Hd)]; [contradiction|].
        destruct (Tk t Et) as (j & Hj & I).
        exists j, t. split; [lia|]. split; [apply Mono; exact I|exact Hd].
Qed.

Lemma grown_from_reruns interactions : forall f0 f,
  grown_from str_value f0 f ->
  grown_from str_value f0 (reruns str_value interactions f).
Proof.
  induction interactions as [|i rest IH]; intros f0 f G; [exact G|].
  cbn [reruns]. apply IH. apply grown_from_rerun. exact G.
Qed.

End Pages.

End Sessions.

(** X14. Through any series of reruns that starts without a token, every
    request that carries headers carries exactly the [Authorization] header
    of a token the back end had issued earlier in the series, in answer to a
    login request; and the token the session ends with, if any, is one of
    those. *)
Theorem X14_only_issued_tokens_are_sent
        (str_value : UI.JSON -> string)
        (interactions : list UI.Interaction) (f0 : UI.Front) :
  UI.token f0 = None ->
  let f := UI.reruns str_value interactions f0 in
  (forall k req,
     nth_error (UI.sent f) k = Some req ->
     List.length (UI.sent f0) <= k ->
     UI.headers req <> [] ->
     exists j t,
       List.length (UI.sent f0) <= j < k /\
       UI.issued_at f j t /\
       UI.headers req = UI.bearer str_value t) /\
  (forall t, UI.token f = Some t ->
     exists j, List.length (UI.sent f0) <= j < List.length (UI.sent f) /\
               UI.issued_at f j t).
Proof.
  intros T f.
  destruct (@Sessions.grown_from_reruns str_value interactions f0 f0
              (@Sessions.grown_from_start str_value f0 T))
    as (_ & _ & _ & Tk & Rq).
  split; [exact Rq|exact Tk].
Qed.

Lemma X14_only_issued_tokens_are_sent_witness :
  let f := UI.reruns (fun _ => "")
             [UI.visit UI.GetRecommendations "" "" "sci-fi films";
              UI.visit UI.Login "ann@example.org" "secret" "";
              UI.visit UI.GetRecommendations "" "" "sci-fi films"]
             (UI.fresh (UI.always 200 (UI.JObj [("access_token", UI.JStr "abc")]))) in
  List.length (UI.sent f) = 2 /\
  exists j t, j < 1 /\ UI.issued_at f j t /\
              [("Authorization", "Bearer abc")] = UI.bearer (fun _ => "") t.
Proof.
  cbn zeta. split; [reflexivity|].
  destruct (@X14_only_issued_tokens_are_sent (fun _ => "")
              [UI.visit UI.GetRecommendations "" "" "sci-fi films";
               UI.visit UI.Login "ann@example.org" "secret" "";
               UI.visit UI.GetRecommendations "" "" "sci-fi films"]
              (UI.fresh (UI.always 200 (UI.JObj [("access_token", UI.JStr "abc")])))
              eq_refl) as [H _].
  destruct (H 1 {| UI.url := "http://localhost:8000/recommend";
                   UI.json_body := UI.JObj [("user_input", UI.JStr "sci-fi films")];
                   UI.headers := [("Authorization", "Bearer abc")] |})
    as (j & t & Hj & I & Hd).
  - reflexivity.
  - cbn. lia.
  - discriminate.
  - exists j, t. split; [lia|]. split; [exact I|exact Hd].
Defined.
